(** * Risk scoring, classification, audit log and temporary grants

    A shallow embedding of two scripts of the extension suite:

    - [identity theft protection/content.js]: [luhnCheck],
      [anonymizeSample], the [PATTERNS] / [KEYWORDS] / [TYPE_WEIGHT]
      tables, [computeRisk], [detectTypes], [appendLog] and the two
      event handlers installed by [hookAllInputs] and [hookAllForms];
    - [WebcamMicPrivacyExtension/background.js]: [checkSitePermissions]
      and [cleanupExpiredPermissions] of [BackgroundManager].

    JavaScript strings are sequences of UTF-16 code units, numbers that
    the scripts only use as integers are in [Z], the [Map] of temporary
    permissions is a [gmap] keyed by host name. *)

From Stdlib Require Import ZArith NArith Ascii String.
From stdpp Require Import gmap strings list fin_maps.

Local Open Scope Z_scope.

(** ** JavaScript strings *)

Module Js.

(** A string value: its UTF-16 code units. *)
Definition str := list N.

(** An ASCII literal of the source, unit by unit. *)
Definition lit (s : string) : str :=
  List.map N_of_ascii (list_ascii_of_string s).

(** U+2022, the bullet of the masked previews. *)
Definition bullet : N := 8226%N.

Definition bullets (n : nat) : str := repeat bullet n.

(** [\d] and [\w] without the unicode flag. *)
Definition isDigit (c : N) : bool := ((48 <=? c) && (c <=? 57))%N.

Definition isLower (c : N) : bool := ((97 <=? c) && (c <=? 122))%N.

Definition isUpper (c : N) : bool := ((65 <=? c) && (c <=? 90))%N.

Definition isWord (c : N) : bool :=
  isDigit c || isLower c || isUpper c || (c =? 95)%N.

(** WhiteSpace and LineTerminator code units, as removed by [trim]. *)
Definition isWhite (c : N) : bool :=
  (((9 <=? c) && (c <=? 13)) || (c =? 32) || (c =? 160) || (c =? 5760)
   || ((8192 <=? c) && (c <=? 8202)) || (c =? 8232) || (c =? 8233)
   || (c =? 8239) || (c =? 8287) || (c =? 12288) || (c =? 65279))%N.

(** [s.replace(/\D/g, "")] *)
Definition stripNonDigits (s : str) : str := List.filter isDigit s.

(** [s.slice(-n)] for a positive literal [n]. *)
Definition sliceLast (n : nat) (s : str) : str :=
  skipn (length s - n)%nat s.

Fixpoint dropWhile (p : N -> bool) (s : str) : str :=
  match s with
  | [] => []
  | c :: r => if p c then dropWhile p r else s
  end.

(** [s.trim()] *)
Definition trim (s : str) : str :=
  rev (dropWhile isWhite (rev (dropWhile isWhite s))).

Fixpoint startsWith (s k : str) : bool :=
  match k, s with
  | [], _ => true
  | _ :: _, [] => false
  | a :: k', b :: s' => (a =? b)%N && startsWith s' k'
  end.

(** [s.includes(k)] *)
Fixpoint includes (s k : str) : bool :=
  startsWith s k ||
  match s with
  | [] => false
  | _ :: r => includes r k
  end.

(** [s.split(sep)] for a one-unit separator: never empty. *)
Fixpoint split (sep : N) (s : str) : list str :=
  match s with
  | [] => [[]]
  | c :: r =>
      if (c =? sep)%N then [] :: split sep r
      else match split sep r with
           | [] => [[c]]
           | p :: ps => (c :: p) :: ps
           end
  end.

(** One string occurs inside another as a contiguous run. *)
Definition occursIn (k s : str) : Prop :=
  exists pre post, s = pre ++ k ++ post.

End Js.

(** ** Regular expressions of the [PATTERNS] table

  [RegExp.prototype.test] without the [g] flag asks whether some
  substring matches.  The patterns of the table use character classes,
  concatenation, alternation, bounded repetition, repetition of a
  class, and the word boundary [\b]; none has a back-reference or a
  look-around, so whether a match exists does not depend on the order
  in which the engine tries the alternatives. *)

Module Re.

Inductive t : Type :=
| Eps : t
| Cls : (N -> bool) -> t
| Cat : t -> t -> t
| Alt : t -> t -> t
| StarCls : (N -> bool) -> t
| WordB : t.

(** [r{n}] *)
Fixpoint rep (n : nat) (r : t) : t :=
  match n with
  | O => Eps
  | S n' => Cat r (rep n' r)
  end.

(** between zero and [n] copies of [r] *)
Fixpoint upTo (n : nat) (r : t) : t :=
  match n with
  | O => Eps
  | S n' => Alt Eps (Cat r (upTo n' r))
  end.

(** [r{lo,hi}] *)
Definition range (lo hi : nat) (r : t) : t :=
  Cat (rep lo r) (upTo (hi - lo) r).

Definition chr (a : ascii) : t := Cls (N.eqb (N_of_ascii a)).

Definition wordBefore (prev : option N) : bool :=
  match prev with
  | Some c => Js.isWord c
  | None => false
  end.

Definition wordAfter (s : Js.str) : bool :=
  match s with
  | c :: _ => Js.isWord c
  | [] => false
  end.

Section Match.
(** Continuation: the unit before the current position and the rest
    of the input. *)
Variable k : option N -> Js.str -> bool.

Fixpoint star (p : N -> bool) (prev : option N) (s : Js.str) : bool :=
  k prev s ||
  match s with
  | c :: r => p c && star p (Some c) r
  | [] => false
  end.
End Match.

Fixpoint run (r : t) (prev : option N) (s : Js.str)
         (k : option N -> Js.str -> bool) : bool :=
  match r with
  | Eps => k prev s
  | Cls p =>
      match s with
      | c :: s' => p c && k (Some c) s'
      | [] => false
      end
  | Cat a b => run a prev s (fun prev' s' => run b prev' s' k)
  | Alt a b => run a prev s k || run b prev s k
  | StarCls p => star k p prev s
  | WordB => xorb (wordBefore prev) (wordAfter s) && k prev s
  end.

Fixpoint searchFrom (r : t) (prev : option N) (s : Js.str) : bool :=
  run r prev s (fun _ _ => true) ||
  match s with
  | c :: s' => searchFrom r (Some c) s'
  | [] => false
  end.

(** [re.test(s)] *)
Definition test (r : t) (s : Js.str) : bool := searchFrom r None s.

End Re.

(** ** Identity theft protection: the content script *)

Module Itp.

Import Js.

Local Open Scope string_scope.
Local Open Scope list_scope.
Local Open Scope Z_scope.

(** *** Settings *)

Record Settings : Type := {
  enableProtection : bool;
  showInlineTips : bool;
  blockOnHighRisk : bool;
  enableBreachChecks : bool;
  requirePinForTrust : bool;
  pinHash : option string;
  trustedDomains : list string;
  logLimit : Z
}.

Definition DEFAULT_SETTINGS : Settings := {|
  enableProtection := true;
  showInlineTips := true;
  blockOnHighRisk := true;
  enableBreachChecks := false;
  requirePinForTrust := false;
  pinHash := None;
  trustedDomains := [];
  logLimit := 800
|}.

(** [arr.includes(x)] on an array of strings. *)
Definition arrIncludes (arr : list string) (x : string) : bool :=
  existsb (String.eqb x) arr.

(** *** Utilities *)

(** One turn of the loop of [luhnCheck]: the running sum and [flip]. *)
Definition luhnStep (st : Z * bool) (c : N) : Z * bool :=
  let '(sum, flip) := st in
  let n := Z.of_N c - 48 in
  let n := if flip
           then (let n2 := n * 2 in if n2 >? 9 then n2 - 9 else n2)
           else n in
  (sum + n, negb flip).

Definition luhnCheck (number : str) : bool :=
  let digits := stripNonDigits number in
  if (length digits <? 12)%nat then false
  else
    let '(sum, _) := fold_left luhnStep (rev digits) (0, false) in
    sum mod 10 =? 0.

(** [null] is [None]. *)
Definition anonymizeSample (value : str) (type : string) : option str :=
  match value with
  | [] => None
  | _ :: _ =>
      let raw := value in
      if String.eqb type "cardNumber" then
        let digits := stripNonDigits raw in
        Some (if (4 <=? length digits)%nat
              then bullets 4 ++ lit " " ++ bullets 4 ++ lit " "
                   ++ bullets 4 ++ lit " " ++ sliceLast 4 digits
              else bullets 4)
      else if String.eqb type "bankAccount" then
        let d := stripNonDigits raw in
        Some (if (4 <=? length d)%nat
              then lit "Acct " ++ bullets 4 ++ sliceLast 4 d
              else lit "Acct " ++ bullets 4)
      else if String.eqb type "nin" || String.eqb type "bvn" then
        Some (bullets 4 ++ sliceLast 4 raw)
      else if String.eqb type "email" then
        match split 64 raw with
        | u :: d :: _ =>
            match d with
            | [] => Some (bullets 3 ++ lit "@" ++ bullets 3)
            | _ :: _ =>
                let uMask :=
                  if (2 <? length u)%nat
                  then firstn 1 u ++ bullets 2 ++ sliceLast 1 u
                  else bullets 3 in
                Some (uMask ++ lit "@" ++ d)
            end
        | _ => Some (bullets 3 ++ lit "@" ++ bullets 3)
        end
      else if String.eqb type "phone" then
        let d := stripNonDigits raw in
        Some (if (4 <=? length d)%nat
              then bullets 3 ++ sliceLast 4 d
              else bullets 3)
      else
        Some (if (4 <? length raw)%nat
              then firstn 1 raw ++ bullets 3 ++ sliceLast 1 raw
              else bullets 3)
  end.

(** *** Detection resources *)

Definition digit : Re.t := Re.Cls isDigit.

Definition upper : Re.t := Re.Cls isUpper.

Definition oneOf (s : string) : N -> bool :=
  fun c => existsb (N.eqb c) (lit s).

Definition between (a b : ascii) : N -> bool :=
  fun c => ((N_of_ascii a <=? c) && (c <=? N_of_ascii b))%N.

Fixpoint cat (rs : list Re.t) : Re.t :=
  match rs with
  | [] => Re.Eps
  | [r] => r
  | r :: rs' => Re.Cat r (cat rs')
  end.

Definition word (s : string) : Re.t :=
  cat (List.map Re.chr (list_ascii_of_string s)).

Definition bounded (r : Re.t) : Re.t := cat [Re.WordB; r; Re.WordB].

Module PATTERNS.

(** [/\b\d{11}\b/] *)
Definition bvn : Re.t := bounded (Re.rep 11 digit).

(** [/\b\d{11}\b/] *)
Definition nin : Re.t := bounded (Re.rep 11 digit).

(** [/\b\d{10}\b/] *)
Definition bankAccount : Re.t := bounded (Re.rep 10 digit).

(** [/\b\d{3,4}\b/] *)
Definition cvv : Re.t := bounded (Re.range 3 4 digit).

(** [/\b(?:\d[ -]*?){13,19}\b/] *)
Definition cardNumber : Re.t :=
  bounded (Re.range 13 19 (Re.Cat digit (Re.StarCls (oneOf " -")))).

(** [/\b(0[1-9]|1[0-2])[\/\-](\d{2}|\d{4})\b/] *)
Definition cardExpiry : Re.t :=
  bounded (cat [
    Re.Alt (Re.Cat (Re.chr "0") (Re.Cls (between "1" "9")))
           (Re.Cat (Re.chr "1") (Re.Cls (between "0" "2")));
    Re.Cls (oneOf "/-");
    Re.Alt (Re.rep 2 digit) (Re.rep 4 digit)]).

(** [/\b(0[1-9]|[12]\d|3[01])[\/\-.](0[1-9]|1[0-2])[\/\-.](19|20)\d{2}\b/] *)
Definition dob : Re.t :=
  bounded (cat [
    Re.Alt (Re.Cat (Re.chr "0") (Re.Cls (between "1" "9")))
      (Re.Alt (Re.Cat (Re.Cls (oneOf "12")) digit)
              (Re.Cat (Re.chr "3") (Re.Cls (oneOf "01"))));
    Re.Cls (oneOf "/-.");
    Re.Alt (Re.Cat (Re.chr "0") (Re.Cls (between "1" "9")))
           (Re.Cat (Re.chr "1") (Re.Cls (between "0" "2")));
    Re.Cls (oneOf "/-.");
    Re.Alt (word "19") (word "20");
    Re.rep 2 digit]).

(** [/(?:\+?234|0)\d{10}\b/] *)
Definition phone : Re.t :=
  cat [
    Re.Alt (Re.Cat (Re.Alt Re.Eps (Re.chr "+")) (word "234"))
           (Re.chr "0");
    Re.rep 10 digit;
    Re.WordB].

(** [/[a-z0-9._%+-]+@[a-z0-9.-]+\.[a-z]{2,}/i]: with the [i] flag a
    letter class takes both cases, and no unit above 127 folds into
    ASCII. *)
Definition email : Re.t :=
  let letter c := isLower c || isUpper c in
  let user c := letter c || isDigit c || oneOf "._%+-" c in
  let host c := letter c || isDigit c || oneOf ".-" c in
  cat [
    Re.Cls user; Re.StarCls user;
    Re.chr "@";
    Re.Cls host; Re.StarCls host;
    Re.chr ".";
    Re.rep 2 (Re.Cls letter); Re.StarCls letter].

(** [/\b([A-Z]\d{7,8}|[A-Z]{2}\d{6,7})\b/] *)
Definition passport : Re.t :=
  bounded (Re.Alt (Re.Cat upper (Re.range 7 8 digit))
                  (Re.Cat (Re.rep 2 upper) (Re.range 6 7 digit))).

(** [/\b\d{3}-\d{2}-\d{4}\b/] *)
Definition ssn : Re.t :=
  bounded (cat [Re.rep 3 digit; Re.chr "-"; Re.rep 2 digit;
                Re.chr "-"; Re.rep 4 digit]).

End PATTERNS.

Module KEYWORDS.
Definition nin : list string :=
  ["nin"; "national id"; "national identification";
   "national identification number"].
Definition bvn : list string := ["bvn"; "bank verification number"].
Definition bankAccount : list string :=
  ["account number"; "acct no"; "nuban"; "iban"].
Definition bankCode : list string :=
  ["bank code"; "sort code"; "swift"; "bic"].
Definition cardNumber : list string :=
  ["card number"; "credit card"; "debit card"; "pan"; "visa";
   "mastercard"; "amex"].
Definition cvv : list string :=
  ["cvv"; "cvc"; "security code"; "card security"].
Definition cardExpiry : list string :=
  ["expiry"; "expiration"; "exp date"; "mm/yy"; "mm/yyyy"].
Definition dob : list string := ["date of birth"; "dob"; "birthdate"].
Definition passport : list string := ["passport"; "passport number"].
Definition phone : list string :=
  ["phone"; "mobile"; "telephone"; "tel"].
Definition email : list string := ["email"; "e-mail"].
Definition password : list string :=
  ["password"; "passcode"; "pin"; "otp"; "one time password"].
Definition ssn : list string := ["ssn"; "social security"].
End KEYWORDS.

(** [TYPE_WEIGHT], as the list of its own properties. *)
Definition TYPE_WEIGHT : list (string * Z) :=
  [("nin", 55); ("bvn", 60); ("bankAccount", 55); ("bankCode", 25);
   ("cardNumber", 80); ("cvv", 70); ("cardExpiry", 25); ("dob", 30);
   ("passport", 45); ("phone", 20); ("email", 20); ("password", 75);
   ("ssn", 70)].

(** [TYPE_WEIGHT[t] || 0], for a tag [t] that is not the name of a
    property inherited from [Object.prototype]. *)
Fixpoint weightIn (tbl : list (string * Z)) (t : string) : Z :=
  match tbl with
  | [] => 0
  | (k, w) :: tbl' => if String.eqb k t then w else weightIn tbl' t
  end.

Definition typeWeight (t : string) : Z := weightIn TYPE_WEIGHT t.

(** *** Risk scoring *)

(** The levels ["low"], ["mod"] and ["high"]. *)
Inductive Level : Type := Low | Mod | High.

Record Risk : Type := {
  score : Z;
  level : Level;
  reasons : list string
}.

(** [set.add(t)] on a [Set] kept in insertion order. *)
Definition setAdd (set : list string) (t : string) : list string :=
  if arrIncludes set t then set else set ++ [t].

(** [[...new Set(types)]] *)
Definition newSet (types : list string) : list string :=
  fold_left setAdd types [].

Definition sumWeights (uniqueTypes : list string) : Z :=
  fold_left (fun base t => base + typeWeight t) uniqueTypes 0.

Definition isEmpty {A : Type} (l : list A) : bool :=
  match l with
  | [] => true
  | _ :: _ => false
  end.

Definition computeRisk (types : list string)
           (https crossOrigin trusted : bool) : Risk :=
  let score := 0 in
  let reasons : list string := [] in
  let uniqueTypes := newSet types in
  let base := sumWeights uniqueTypes in
  let base := Z.min base 100 in
  let score := score + base in
  let reasons :=
    if isEmpty uniqueTypes then reasons
    else reasons ++ [String.append "Contains: "
                                   (String.concat ", " uniqueTypes)] in
  let '(score, reasons) :=
    if negb https
    then (score + 30, reasons ++ ["Non-HTTPS connection"])
    else (score, reasons) in
  let '(score, reasons) :=
    if crossOrigin
    then (score + 20, reasons ++ ["Form posts to different origin"])
    else (score, reasons) in
  let '(score, reasons) :=
    if negb trusted
    then (score + 20, reasons ++ ["Domain not in trusted list"])
    else (score, reasons) in
  let score := Z.max 0 (Z.min 100 score) in
  let level :=
    if score >=? 70 then High
    else if score >=? 40 then Mod
    else Low in
  {| score := score; level := level; reasons := reasons |}.

(** *** Field analysis *)

(** A form control as the script reads it: [el.value], the text that
    [getFieldContextText(el)] collects from the labels and attributes
    around it (already normalised), and [el.type]. *)
Record Field : Type := {
  value : str;
  contextText : str;
  inputType : string
}.

(** [KEYWORDS.x.some(k => ctx.includes(k))] *)
Definition someIncluded (keywords : list string) (ctx : str) : bool :=
  existsb (fun k => includes ctx (lit k)) keywords.

Definition addIf (cond : bool) (t : string) (types : list string)
  : list string :=
  if cond then setAdd types t else types.

Definition detectTypes (el : Field) : list string :=
  let types : list string := [] in
  let val := trim (value el) in
  let ctx := contextText el in
  let types :=
    addIf (Re.test PATTERNS.email val || someIncluded KEYWORDS.email ctx)
          "email" types in
  let types :=
    addIf (Re.test PATTERNS.phone val || someIncluded KEYWORDS.phone ctx)
          "phone" types in
  let types :=
    if Re.test PATTERNS.cardNumber val
       || someIncluded KEYWORDS.cardNumber ctx
    then
      let digits := stripNonDigits val in
      addIf ((13 <=? length digits)%nat && (length digits <=? 19)%nat
             && luhnCheck val)
            "cardNumber" types
    else types in
  let types :=
    addIf (Re.test PATTERNS.cvv val || someIncluded KEYWORDS.cvv ctx)
          "cvv" types in
  let types :=
    addIf (Re.test PATTERNS.cardExpiry val
           || someIncluded KEYWORDS.cardExpiry ctx)
          "cardExpiry" types in
  let types :=
    addIf (Re.test PATTERNS.bvn val || someIncluded KEYWORDS.bvn ctx)
          "bvn" types in
  let types :=
    addIf (Re.test PATTERNS.nin val || someIncluded KEYWORDS.nin ctx)
          "nin" types in
  let types :=
    addIf (Re.test PATTERNS.bankAccount val
           || someIncluded KEYWORDS.bankAccount ctx)
          "bankAccount" types in
  let types :=
    addIf (Re.test PATTERNS.passport val
           || someIncluded KEYWORDS.passport ctx)
          "passport" types in
  let types :=
    addIf (Re.test PATTERNS.dob val || someIncluded KEYWORDS.dob ctx)
          "dob" types in
  let types :=
    addIf (Re.test PATTERNS.ssn val || someIncluded KEYWORDS.ssn ctx)
          "ssn" types in
  let types :=
    addIf (String.eqb (inputType el) "password"
           || someIncluded KEYWORDS.password ctx)
          "password" types in
  types.

(** *** Logging *)

(** An entry of [itpLogs] written by the two handlers.  The submit
    handler writes no [sample] key: [None] stands for that and for
    [null]. *)
Record LogEntry : Type := {
  ts : Z;
  url : string;
  host : string;
  https : bool;
  formAction : option string;
  types : list string;
  risk : Z;
  logLevel : Level;
  sample : option str;
  action : string
}.

(** [x || d] on numbers. *)
Definition orDefault (x d : Z) : Z := if x =? 0 then d else x.

(** [while (logs.length > limit) logs.shift();]
    [shift] leaves an empty array empty, so under a negative limit the
    loop never ends: that is [None]. *)
Fixpoint ringTrim (limit : Z) (logs : list LogEntry)
  : option (list LogEntry) :=
  match logs with
  | [] => if 0 >? limit then None else Some []
  | _ :: rest =>
      if Z.of_nat (length logs) >? limit then ringTrim limit rest
      else Some logs
  end.

(** [appendLog(entry)]: from the stored value of [itpLogs] ([None]
    when it is not an array) to the array written back; [None] when
    the loop never ends and nothing is written. *)
Definition appendLog (SETTINGS : Settings)
           (itpLogs : option (list LogEntry)) (entry : LogEntry)
  : option (list LogEntry) :=
  let logs := match itpLogs with Some a => a | None => [] end in
  let logs := logs ++ [entry] in
  ringTrim (orDefault (logLimit SETTINGS) (logLimit DEFAULT_SETTINGS))
           logs.

(** *** Form and input observation *)

(** The page: [CURRENT_HOST], [isHTTPS()] and [location.href]. *)
Record Page : Type := {
  CURRENT_HOST : string;
  isHTTPS : bool;
  href : string
}.

(** A form: its [action] attribute, the host name that
    [hostnameFromUrl] reads from it (empty when it does not parse) and
    its controls. *)
Record Form : Type := {
  actionAttr : option string;
  actionHost : string;
  inputs : list Field
}.

(** Truth of [formAction]. *)
Definition hasAction (formAction : option string) : bool :=
  match formAction with
  | Some a => negb (String.eqb a "")
  | None => false
  end.

(** [formAction || null] *)
Definition orNull (formAction : option string) : option string :=
  if hasAction formAction then formAction else None.

Definition formActionHostOf (pg : Page) (f : option Form) : string :=
  match f with
  | Some f =>
      if hasAction (actionAttr f) then actionHost f else CURRENT_HOST pg
  | None => CURRENT_HOST pg
  end.

(** Truth of [formActionHost && formActionHost !== CURRENT_HOST]. *)
Definition crossOriginOf (pg : Page) (formActionHost : string) : bool :=
  negb (String.eqb formActionHost "")
  && negb (String.eqb formActionHost (CURRENT_HOST pg)).

(** The argument of [openDetailModal]. *)
Record Detail : Type := {
  dLevel : Level;
  dScore : Z;
  dReasons : list string;
  dTypes : list string;
  dHttps : bool;
  dCrossOrigin : bool;
  dFormActionHost : string
}.

(** The module-level variables the handlers read and write. *)
Record State : Type := {
  SETTINGS : Settings;
  proceedOnceFlag : bool;
  pendingFormToSubmit : option Form;
  modal : option Detail
}.

(** What happens to the badge of a field. *)
Inductive Badge : Type :=
| BadgeUntouched
| BadgeRemoved
| BadgeShown (lvl : Level) (details : Detail).

(** What one run of the input handler does. *)
Record ChangeEffects : Type := {
  badge : Badge;
  highRiskToast : bool;
  breachCheck : option str;
  changeLogged : option LogEntry
}.

Definition noChange : ChangeEffects :=
  {| badge := BadgeUntouched; highRiskToast := false;
     breachCheck := None; changeLogged := None |}.

(** [types[0] || "unknown"] *)
Definition firstType (types : list string) : string :=
  match types with
  | t :: _ => if String.eqb t "" then "unknown" else t
  | [] => "unknown"
  end.

Definition isHigh (l : Level) : bool :=
  match l with
  | High => true
  | _ => false
  end.

(** The handler that [hookAllInputs] installs on a control [el] of
    form [f], run at time [now]. *)
Definition onChange (pg : Page) (now : Z) (st : State)
           (el : Field) (f : option Form) : ChangeEffects :=
  if negb (enableProtection (SETTINGS st)) then noChange
  else
    let types := detectTypes el in
    if isEmpty types then
      {| badge := BadgeRemoved; highRiskToast := false;
         breachCheck := None; changeLogged := None |}
    else
      let breach :=
        if enableBreachChecks (SETTINGS st) && arrIncludes types "email"
        then
          let emailVal := trim (value el) in
          if Re.test PATTERNS.email emailVal then Some emailVal else None
        else None in
      let formAction :=
        match f with Some f => actionAttr f | None => None end in
      let formActionHost := formActionHostOf pg f in
      let crossOrigin := crossOriginOf pg formActionHost in
      let risk :=
        computeRisk types (isHTTPS pg) crossOrigin
          (arrIncludes (trustedDomains (SETTINGS st)) (CURRENT_HOST pg)) in
      let detailPayload :=
        {| dLevel := level risk; dScore := score risk;
           dReasons := reasons risk; dTypes := types;
           dHttps := isHTTPS pg; dCrossOrigin := crossOrigin;
           dFormActionHost := formActionHost |} in
      {| badge := BadgeShown (level risk) detailPayload;
         highRiskToast :=
           showInlineTips (SETTINGS st) && isHigh (level risk);
         breachCheck := breach;
         changeLogged := Some
           {| ts := now; url := href pg; host := CURRENT_HOST pg;
              https := isHTTPS pg; formAction := orNull formAction;
              types := types; risk := score risk;
              logLevel := level risk;
              sample := anonymizeSample (value el) (firstType types);
              action := "field-change" |} |}.

(** What one run of the submit handler does to the event and the log. *)
Record SubmitEffects : Type := {
  defaultPrevented : bool;
  submitLogged : option LogEntry
}.

(** The types of all controls of the form, in one [Set]. *)
Definition formTypes (form : Form) : list string :=
  fold_left (fun types el => fold_left setAdd (detectTypes el) types)
            (inputs form) [].

(** The capture-phase submit handler that [hookAllForms] installs. *)
Definition onSubmit (pg : Page) (now : Z) (st : State) (form : Form)
  : State * SubmitEffects :=
  if negb (enableProtection (SETTINGS st))
  then (st, {| defaultPrevented := false; submitLogged := None |})
  else
    let types := formTypes form in
    if isEmpty types
    then (st, {| defaultPrevented := false; submitLogged := None |})
    else
      let formAction := actionAttr form in
      let formActionHost := formActionHostOf pg (Some form) in
      let crossOrigin := crossOriginOf pg formActionHost in
      let trusted :=
        arrIncludes (trustedDomains (SETTINGS st)) (CURRENT_HOST pg) in
      let risk := computeRisk types (isHTTPS pg) crossOrigin trusted in
      let entry (act : string) : LogEntry :=
        {| ts := now; url := href pg; host := CURRENT_HOST pg;
           https := isHTTPS pg; formAction := orNull formAction;
           types := types; risk := score risk; logLevel := level risk;
           sample := None; action := act |} in
      if blockOnHighRisk (SETTINGS st) && isHigh (level risk)
         && negb trusted && negb (proceedOnceFlag st)
      then
        ({| SETTINGS := SETTINGS st;
            proceedOnceFlag := proceedOnceFlag st;
            pendingFormToSubmit := Some form;
            modal := Some
              {| dLevel := level risk; dScore := score risk;
                 dReasons := reasons risk; dTypes := types;
                 dHttps := isHTTPS pg; dCrossOrigin := crossOrigin;
                 dFormActionHost := formActionHost |} |},
         {| defaultPrevented := true;
            submitLogged := Some (entry "blocked-submit") |})
      else
        ({| SETTINGS := SETTINGS st;
            proceedOnceFlag := false;
            pendingFormToSubmit := pendingFormToSubmit st;
            modal := modal st |},
         {| defaultPrevented := false;
            submitLogged := Some (entry "allowed-submit") |}).

(** *** Trusting a domain and overriding once *)

Definition withTrustedDomains (S : Settings) (domains : list string)
  : Settings :=
  {| enableProtection := enableProtection S;
     showInlineTips := showInlineTips S;
     blockOnHighRisk := blockOnHighRisk S;
     enableBreachChecks := enableBreachChecks S;
     requirePinForTrust := requirePinForTrust S;
     pinHash := pinHash S;
     trustedDomains := domains;
     logLimit := logLimit S |}.

(** What [trustCurrentDomainWithOptionalPIN] returns, whether it called
    [saveSettings], and the state it leaves. *)
Record TrustOutcome : Type := {
  trustOk : bool;
  settingsSaved : bool;
  trustState : State
}.

Section Trust.

(** [sha256Hex]: the digest of the browser, as a hex string. *)
Variable sha256Hex : str -> string.

(** The PIN gate: [pin] is what [prompt] returns ([None] for [null]);
    it is only asked for when [requirePinForTrust] is set. *)
Definition pinAccepted (S : Settings) (pin : option str) : bool :=
  if requirePinForTrust S then
    match pin with
    | None => false
    | Some [] => false
    | Some (c :: p) =>
        let hash := sha256Hex (c :: p) in
        match pinHash S with
        | None => false
        | Some h => negb (String.eqb h "") && String.eqb hash h
        end
    end
  else true.

Definition trustCurrentDomainWithOptionalPIN (pg : Page) (st : State)
           (pin : option str) : TrustOutcome :=
  if negb (pinAccepted (SETTINGS st) pin) then
    {| trustOk := false; settingsSaved := false; trustState := st |}
  else if negb (arrIncludes (trustedDomains (SETTINGS st))
                            (CURRENT_HOST pg)) then
    {| trustOk := true; settingsSaved := true;
       trustState :=
         {| SETTINGS :=
              withTrustedDomains (SETTINGS st)
                (trustedDomains (SETTINGS st) ++ [CURRENT_HOST pg]);
            proceedOnceFlag := proceedOnceFlag st;
            pendingFormToSubmit := pendingFormToSubmit st;
            modal := modal st |} |}
  else
    {| trustOk := true; settingsSaved := false; trustState := st |}.

(** The [trust] button of the detail modal: the modal closes when the
    host was trusted. *)
Definition clickTrust (pg : Page) (st : State) (pin : option str)
  : TrustOutcome :=
  let out := trustCurrentDomainWithOptionalPIN pg st pin in
  if trustOk out then
    {| trustOk := true; settingsSaved := settingsSaved out;
       trustState :=
         {| SETTINGS := SETTINGS (trustState out);
            proceedOnceFlag := proceedOnceFlag (trustState out);
            pendingFormToSubmit := pendingFormToSubmit (trustState out);
            modal := None |} |}
  else out.

End Trust.

(** The [block] button of the detail modal: the modal closes. *)
Definition clickBlock (st : State) : State :=
  {| SETTINGS := SETTINGS st;
     proceedOnceFlag := proceedOnceFlag st;
     pendingFormToSubmit := pendingFormToSubmit st;
     modal := None |}.

(** The [proceed-once] button: the flag is set, and a held form is
    released and submitted natively, past the submit handler. *)
Definition clickProceedOnce (st : State) : State * option Form :=
  ({| SETTINGS := SETTINGS st;
      proceedOnceFlag := true;
      pendingFormToSubmit := None;
      modal := None |},
   pendingFormToSubmit st).

(** *** The events of a page *)

(** What can happen on a page once the script runs: a submit event on
    a form, a change of a field, and clicks on the [Details] button of
    a badge, on the mask around the modal and on the three buttons of
    the modal.  No other code of the script writes the state. *)
Inductive Event : Type :=
| Submitted (now : Z) (form : Form)
| Changed (now : Z) (el : Field) (f : option Form)
| DetailsClicked (details : Detail)
| MaskClicked
| TrustClicked (pin : option str)
| BlockClicked
| ProceedOnceClicked.

(** [openDetailModal(details)] from a badge: the modal opens. *)
Definition openDetails (st : State) (details : Detail) : State :=
  {| SETTINGS := SETTINGS st;
     proceedOnceFlag := proceedOnceFlag st;
     pendingFormToSubmit := pendingFormToSubmit st;
     modal := Some details |}.

(** The state after one event, the digest of the browser given. *)
Definition handle (sha256Hex : str -> string) (pg : Page) (st : State)
           (ev : Event) : State :=
  match ev with
  | Submitted now form => (onSubmit pg now st form).1
  | Changed _ _ _ => st
  | DetailsClicked details => openDetails st details
  | MaskClicked => clickBlock st
  | TrustClicked pin => trustState (clickTrust sha256Hex pg st pin)
  | BlockClicked => clickBlock st
  | ProceedOnceClicked => (clickProceedOnce st).1
  end.

(** The state after a sequence of events. *)
Definition handleAll (sha256Hex : str -> string) (pg : Page) (st : State)
           (events : list Event) : State :=
  fold_left (handle sha256Hex pg) events st.

End Itp.

(** ** Webcam and microphone guard: the background manager *)

Module Guard.

(** [this.settings], with the defaults of [loadSettings]. *)
Record Settings : Type := {
  webcamBlocked : bool;
  micBlocked : bool;
  showNotifications : bool;
  logActivity : bool;
  autoBlockBackground : bool;
  fakeMediaEnabled : bool;
  notificationSound : bool
}.

Definition defaultSettings : Settings := {|
  webcamBlocked := true;
  micBlocked := true;
  showNotifications := true;
  logActivity := true;
  autoBlockBackground := true;
  fakeMediaEnabled := false;
  notificationSound := true
|}.

(** A value of [temporaryPermissions], as the popup stores it. *)
Record TempPerms : Type := {
  webcam : bool;
  microphone : bool;
  expiry : Z
}.

Inductive Reason : Type := backgroundTab | temporary | global.

(** The answer of [checkSitePermissions]; only the temporary answer
    carries an [expiry]. *)
Record Permissions : Type := {
  webcamAllowed : bool;
  microphoneAllowed : bool;
  reason : Reason;
  permExpiry : option Z
}.

(** The manager with the part of [chrome.storage.local] it writes:
    the value under the key [temporaryPermissions] ([None] while the
    key is absent) and the number of [set] calls made so far. *)
Record Manager : Type := {
  settings : Settings;
  temporaryPermissions : gmap string TempPerms;
  storedPermissions : option (gmap string TempPerms);
  storageWrites : nat
}.

Definition checkSitePermissions (this : Manager) (now : Z)
           (hostname : string) (isBackground : bool) : Permissions :=
  if isBackground && autoBlockBackground (settings this) then
    {| webcamAllowed := false; microphoneAllowed := false;
       reason := backgroundTab; permExpiry := None |}
  else
    let globalAnswer :=
      {| webcamAllowed := negb (webcamBlocked (settings this));
         microphoneAllowed := negb (micBlocked (settings this));
         reason := global; permExpiry := None |} in
    match temporaryPermissions this !! hostname with
    | Some tempPerms =>
        if expiry tempPerms >? now then
          {| webcamAllowed :=
               webcam tempPerms && negb (webcamBlocked (settings this));
             microphoneAllowed :=
               microphone tempPerms && negb (micBlocked (settings this));
             reason := temporary;
             permExpiry := Some (expiry tempPerms) |}
        else globalAnswer
    | None => globalAnswer
    end.

(** One turn of the loop of [cleanupExpiredPermissions]: the map and
    [hasExpired]. *)
Definition sweepStep (now : Z) (acc : gmap string TempPerms * bool)
           (entry : string * TempPerms) : gmap string TempPerms * bool :=
  let '(perms, hasExpired) := acc in
  if expiry entry.2 <=? now then (delete entry.1 perms, true)
  else (perms, hasExpired).

(** The loop visits the entries that the map holds when it starts; an
    entry is deleted at most once, so the order of the visit does not
    show in the result. *)
Definition sweep (now : Z) (perms : gmap string TempPerms)
  : gmap string TempPerms * bool :=
  fold_left (sweepStep now) (map_to_list perms) (perms, false).

Definition cleanupExpiredPermissions (this : Manager) (now : Z)
  : Manager :=
  let '(perms, hasExpired) := sweep now (temporaryPermissions this) in
  if hasExpired then
    {| settings := settings this;
       temporaryPermissions := perms;
       storedPermissions := Some perms;
       storageWrites := S (storageWrites this) |}
  else
    {| settings := settings this;
       temporaryPermissions := perms;
       storedPermissions := storedPermissions this;
       storageWrites := storageWrites this |}.

(** The test of the loop on one entry. *)
Definition expiredAt (now : Z) (entry : string * TempPerms) : bool :=
  expiry entry.2 <=? now.

(** The two capabilities a grant can cover. *)
Inductive Capability : Type := Webcam | Microphone.

Definition covers (g : TempPerms) (c : Capability) : bool :=
  match c with
  | Webcam => webcam g
  | Microphone => microphone g
  end.

Definition allowed (p : Permissions) (c : Capability) : bool :=
  match c with
  | Webcam => webcamAllowed p
  | Microphone => microphoneAllowed p
  end.

Definition blocked (s : Settings) (c : Capability) : bool :=
  match c with
  | Webcam => webcamBlocked s
  | Microphone => micBlocked s
  end.

(** The answer from the global settings alone. *)
Definition globalAnswer (s : Settings) : Permissions :=
  {| webcamAllowed := negb (webcamBlocked s);
     microphoneAllowed := negb (micBlocked s);
     reason := global; permExpiry := None |}.

(** The answer for a background tab under [autoBlockBackground]. *)
Definition backgroundAnswer : Permissions :=
  {| webcamAllowed := false; microphoneAllowed := false;
     reason := backgroundTab; permExpiry := None |}.

(** [loadTemporaryPermissions]: the stored object, when there is one,
    replaces the map, which is then swept. *)
Definition loadTemporaryPermissions (this : Manager) (now : Z) : Manager :=
  match storedPermissions this with
  | Some stored =>
      cleanupExpiredPermissions
        {| settings := settings this;
           temporaryPermissions := stored;
           storedPermissions := storedPermissions this;
           storageWrites := storageWrites this |}
        now
  | None => this
  end.

End Guard.

(** ** The activity log of the background manager *)

Module Activity.

Local Open Scope string_scope.
Local Open Scope list_scope.
Local Open Scope Z_scope.

(** An entry of [activityLog]; the popup writes the same key and leaves
    [userAgent] out. *)
Record Entry : Type := {
  timestamp : Z;
  site : string;
  action : string;
  device : string;
  userAgent : option string
}.

(** [logActivity(hostname, action, device)] at time [now] in a browser
    whose [navigator.userAgent] is [agent]: from the stored value of
    [activityLog] ([None] while the key is absent) to the stored value
    after the call. *)
Definition logActivity (this : Guard.Manager) (agent : string) (now : Z)
           (activityLog : option (list Entry))
           (hostname action device : string) : option (list Entry) :=
  if negb (Guard.logActivity (Guard.settings this)) then activityLog
  else
    let activities := match activityLog with Some a => a | None => [] end in
    let activities :=
      activities ++ [ {| timestamp := now; site := hostname;
                         action := action; device := device;
                         userAgent := Some agent |} ] in
    let activities :=
      if (1000 <? length activities)%nat
      then skipn (length activities - 1000) activities
      else activities in
    Some activities.

(** The names that every object inherits from [Object.prototype]; the
    counting object of [detectSuspiciousActivity] is a finite map for
    all other site names. *)
Definition inheritedKeys : list string :=
  ["constructor"; "hasOwnProperty"; "isPrototypeOf";
   "propertyIsEnumerable"; "toLocaleString"; "toString"; "valueOf";
   "__proto__"; "__defineGetter__"; "__defineSetter__";
   "__lookupGetter__"; "__lookupSetter__"].

Definition recentActivities (now : Z) (activities : list Entry)
  : list Entry :=
  let oneHourAgo := now - 60 * 60 * 1000 in
  List.filter (fun a => timestamp a >? oneHourAgo) activities.

(** [siteCounts[activity.site] = (siteCounts[activity.site] || 0) + 1] *)
Definition countActivity (siteCounts : gmap string Z) (activity : Entry)
  : gmap string Z :=
  <[site activity := default 0 (siteCounts !! site activity) + 1]>
    siteCounts.

Definition siteCounts (now : Z) (activities : list Entry) : gmap string Z :=
  fold_left countActivity (recentActivities now activities) ∅.

(** [detectSuspiciousActivity()] at time [now]: the sites for which
    [showSuspiciousActivityAlert] is called, each with its count. *)
Definition detectSuspiciousActivity (now : Z)
           (activityLog : option (list Entry)) : gmap string Z :=
  let activities := match activityLog with Some a => a | None => [] end in
  filter (fun entry => 10 < entry.2) (siteCounts now activities).

End Activity.

(** ** The content script and the page script of the media guard *)

Module MediaGuard.

Local Open Scope string_scope.
Local Open Scope Z_scope.

(** The two flags that the page script reads from a permission answer. *)
Record Permissions : Type := {
  webcamAllowed : bool;
  microphoneAllowed : bool
}.

Definition denied : Permissions :=
  {| webcamAllowed := false; microphoneAllowed := false |}.

(** [getPermissions()]: the answer of the background manager, or the
    denial when there is none. *)
Definition getPermissions (response : option Guard.Permissions)
  : Permissions :=
  match response with
  | Some r =>
      {| webcamAllowed := Guard.webcamAllowed r;
         microphoneAllowed := Guard.microphoneAllowed r |}
  | None => denied
  end.

(** [handleAccessAttempt(device, constraints)] of the content script:
    the [actionType] it reports to the background manager. *)
Definition handleAccessAttempt (fakeMediaEnabled : bool)
           (response : option Guard.Permissions) (device : string)
  : string :=
  let permissions := getPermissions response in
  let deviceAllowed :=
    if String.eqb device "video" || String.eqb device "webcam"
    then webcamAllowed permissions
    else if String.eqb device "audio" || String.eqb device "microphone"
    then microphoneAllowed permissions
    else false in
  if deviceAllowed
  then (if fakeMediaEnabled then "fake" else "allowed")
  else "blocked".

(** How [interceptedGetUserMedia] ends: the [NotAllowedError], a fake
    stream with the listed tracks, or the call of the original
    function. *)
Inductive Outcome : Type :=
| NotAllowedError
| FakeStream (video audio : bool)
| OriginalGetUserMedia.

(** [interceptedGetUserMedia(constraints)] of the page script, for
    constraints whose [video] and [audio] are truthy or not, once the
    permission answer has arrived (after a second without one it is the
    denial). *)
Definition interceptedGetUserMedia (fakeMediaEnabled : bool)
           (temporaryPermissions : option Guard.TempPerms) (now : Z)
           (video audio : bool) (permissions : Permissions) : Outcome :=
  let videoAllowed := negb video || webcamAllowed permissions in
  let audioAllowed := negb audio || microphoneAllowed permissions in
  let '(videoAllowed, audioAllowed) :=
    match temporaryPermissions with
    | Some t =>
        if Guard.expiry t >? now then
          (if video && Guard.webcam t then true else videoAllowed,
           if audio && Guard.microphone t then true else audioAllowed)
        else (videoAllowed, audioAllowed)
    | None => (videoAllowed, audioAllowed)
    end in
  if negb videoAllowed || negb audioAllowed then NotAllowedError
  else if fakeMediaEnabled then FakeStream video audio
  else OriginalGetUserMedia.

End MediaGuard.

(** ** The popup of the media guard *)

Module Popup.

Local Open Scope string_scope.
Local Open Scope list_scope.
Local Open Scope Z_scope.

(** What [grantTemporaryAccess] does: the map of the popup, the object
    it stores under [temporaryPermissions], the permissions it sends to
    the content script and the device it logs as allowed; nothing but
    the unchanged map when it returns early. *)
Record GrantEffects : Type := {
  popupPermissions : gmap string Guard.TempPerms;
  storedObject : option (gmap string Guard.TempPerms);
  sentToTab : option Guard.TempPerms;
  loggedDevice : option string
}.

(** [grantTemporaryAccess()] at time [now]: the two check boxes, the
    duration in minutes that [parseInt] reads from the selection (a
    number) and the host of the current tab ([None] without a tab). *)
Definition grantTemporaryAccess
           (temporaryPermissions : gmap string Guard.TempPerms)
           (now : Z) (webcamChecked micChecked : bool) (duration : Z)
           (currentTab : option string) : GrantEffects :=
  let nothing :=
    {| popupPermissions := temporaryPermissions; storedObject := None;
       sentToTab := None; loggedDevice := None |} in
  if negb webcamChecked && negb micChecked then nothing
  else
    match currentTab with
    | None => nothing
    | Some siteName =>
        let expiry := now + duration * 60 * 1000 in
        let grant :=
          {| Guard.webcam := webcamChecked;
             Guard.microphone := micChecked;
             Guard.expiry := expiry |} in
        let perms := <[siteName := grant]> temporaryPermissions in
        {| popupPermissions := perms;
           storedObject := Some perms;
           sentToTab := Some grant;
           loggedDevice :=
             Some (if webcamChecked then "webcam" else "microphone") |}
    end.

(** [logActivity(site, action, device)] of the popup, on the key that
    the background manager writes too. *)
Definition logActivity (now : Z) (activityLog : option (list Activity.Entry))
           (site action device : string) : list Activity.Entry :=
  let activities := match activityLog with Some a => a | None => [] end in
  let activities :=
    activities ++ [ {| Activity.timestamp := now; Activity.site := site;
                       Activity.action := action;
                       Activity.device := device;
                       Activity.userAgent := None |} ] in
  if (100 <? length activities)%nat
  then skipn (length activities - 100) activities
  else activities.

End Popup.

(** ** Notions of the specification *)

Module Spec.

Import Js Itp.

(** The value of a digit unit. *)
Definition digitValue (c : N) : Z := Z.of_N c - 48.

(** The digit sequence of a field value. *)
Definition digitsOf (s : str) : list Z :=
  List.map digitValue (stripNonDigits s).

(** Doubling a digit and adding the digits of the product. *)
Definition doubled (d : Z) : Z := if 2 * d >? 9 then 2 * d - 9 else 2 * d.

(** The mod-10 sum of a digit sequence read from the right: the
    rightmost digit counts as it is, every second one is doubled. *)
Fixpoint mod10Sum (double : bool) (fromRight : list Z) : Z :=
  match fromRight with
  | [] => 0
  | d :: rest =>
      (if double then doubled d else d) + mod10Sum (negb double) rest
  end.

(** The standard mod-10 check-digit test. *)
Definition passesMod10 (digits : list Z) : bool :=
  mod10Sum false (rev digits) mod 10 =? 0.

(** The level that the thresholds 70 and 40 give a score. *)
Definition levelOf (score : Z) : Level :=
  if score >=? 70 then High else if score >=? 40 then Mod else Low.

(** The sum of the context penalties. *)
Definition penalties (https crossOrigin trusted : bool) : Z :=
  (if https then 0 else 30) + (if crossOrigin then 20 else 0)
  + (if trusted then 0 else 20).

(** The risk that the submit handler computes for a form. *)
Definition formRisk (pg : Page) (st : State) (form : Form) : Risk :=
  computeRisk (formTypes form) (isHTTPS pg)
    (crossOriginOf pg (formActionHostOf pg (Some form)))
    (arrIncludes (trustedDomains (SETTINGS st)) (CURRENT_HOST pg)).

(** High level, blocking enabled, host not trusted, no one-time
    override pending. *)
Definition blockCondition (pg : Page) (st : State) (form : Form) : bool :=
  isHigh (level (formRisk pg st form))
  && blockOnHighRisk (SETTINGS st)
  && negb (arrIncludes (trustedDomains (SETTINGS st)) (CURRENT_HOST pg))
  && negb (proceedOnceFlag st).

(** The submit event is cancelled, the form is held and the override
    modal is open. *)
Definition isBlocked (form : Form) (out : State * SubmitEffects) : Prop :=
  defaultPrevented out.2 = true
  /\ pendingFormToSubmit out.1 = Some form
  /\ is_Some (modal out.1).

(** The submission goes on and an [allowed-submit] entry is logged. *)
Definition isAllowedAndLogged (out : State * SubmitEffects) : Prop :=
  defaultPrevented out.2 = false
  /\ exists e, submitLogged out.2 = Some e
               /\ action e = "allowed-submit"%string.

(** Blocked exactly under [blockCondition], otherwise allowed and
    logged. *)
Definition submitDecision (pg : Page) (now : Z) (st : State)
           (form : Form) : Prop :=
  (isBlocked form (onSubmit pg now st form)
   <-> blockCondition pg st form = true)
  /\ (blockCondition pg st form = false
      -> isAllowedAndLogged (onSubmit pg now st form)).

End Spec.

(** ** Sample inputs *)

Module ItpSamples.

Import Js Itp.

Local Open Scope string_scope.
Local Open Scope list_scope.
Local Open Scope Z_scope.

(** A card-shaped value under a card keyword, with a wrong check
    digit. *)
Definition badCardField : Field :=
  {| value := lit "4111 1111 1111 1112";
     contextText := lit "card number";
     inputType := "text" |}.

(** A page, the default state and a short value typed into a field
    labelled as a national identity number. *)
Definition somePage : Page :=
  {| CURRENT_HOST := "shop.example"; isHTTPS := true;
     href := "https://shop.example/pay" |}.

Definition initialState : State :=
  {| SETTINGS := DEFAULT_SETTINGS; proceedOnceFlag := false;
     pendingFormToSubmit := None; modal := None |}.

Definition shortNinField : Field :=
  {| value := lit "12"; contextText := lit "nin";
     inputType := "text" |}.

(** A cross-origin form without controls on an HTTP page. *)
Definition httpPage : Page :=
  {| CURRENT_HOST := "shop.example"; isHTTPS := false;
     href := "http://shop.example/pay" |}.

Definition emptyCrossForm : Form :=
  {| actionAttr := Some "http://collect.example/in";
     actionHost := "collect.example"; inputs := [] |}.

(** A form with one e-mail field, and the state with protection
    switched off. *)
Definition emailForm : Form :=
  {| actionAttr := None; actionHost := "";
     inputs := [ {| value := lit "ann@mail.example";
                    contextText := lit "email";
                    inputType := "text" |} ] |}.

Definition protectionOff : State :=
  {| SETTINGS :=
       {| enableProtection := false; showInlineTips := true;
          blockOnHighRisk := true; enableBreachChecks := false;
          requirePinForTrust := false; pinHash := None;
          trustedDomains := []; logLimit := 800 |};
     proceedOnceFlag := false; pendingFormToSubmit := None;
     modal := None |}.

Definition entryAt (t : Z) : LogEntry :=
  {| ts := t; url := "https://shop.example/pay"; host := "shop.example";
     https := true; formAction := None; types := ["email"]; risk := 40;
     logLevel := Mod; sample := None; action := "allowed-submit" |}.

Definition limitTwo : Settings :=
  {| enableProtection := true; showInlineTips := true;
     blockOnHighRisk := true; enableBreachChecks := false;
     requirePinForTrust := false; pinHash := None;
     trustedDomains := []; logLimit := 2 |}.

End ItpSamples.

Module GuardSamples.

Import Guard.

Local Open Scope string_scope.
Local Open Scope Z_scope.

Definition camGrant (until : Z) : TempPerms :=
  {| webcam := true; microphone := false; expiry := until |}.

(** The default settings, one webcam grant for one site. *)
Definition blockingManager (until : Z) : Manager :=
  {| settings := defaultSettings;
     temporaryPermissions := {["meet.example" := camGrant until]};
     storedPermissions := Some {["meet.example" := camGrant until]};
     storageWrites := 0 |}.

Definition openSettings : Settings :=
  {| webcamBlocked := false; micBlocked := false;
     showNotifications := true; logActivity := true;
     autoBlockBackground := true; fakeMediaEnabled := false;
     notificationSound := true |}.

(** Nothing blocked globally, one webcam grant for one site. *)
Definition openManager (until : Z) : Manager :=
  {| settings := openSettings;
     temporaryPermissions := {["meet.example" := camGrant until]};
     storedPermissions := Some {["meet.example" := camGrant until]};
     storageWrites := 0 |}.



End GuardSamples.

(** ** Notions and samples for the further properties *)

Module Notions.

Import Js Itp.

Local Open Scope string_scope.
Local Open Scope list_scope.
Local Open Scope Z_scope.

(** The tags that [detectTypes] has a rule for. *)
Definition detectable : list string :=
  ["email"; "phone"; "cardNumber"; "cvv"; "cardExpiry"; "bvn"; "nin";
   "bankAccount"; "passport"; "dob"; "ssn"; "password"].

(** The evidence that opens the card-number rule for a field. *)
Definition cardEvidence (el : Field) : bool :=
  Re.test PATTERNS.cardNumber (trim (value el))
  || someIncluded KEYWORDS.cardNumber (contextText el).

(** The mask that the e-mail preview puts for the part before the
    separator. *)
Definition userMask (u : str) : str :=
  if (2 <? length u)%nat
  then firstn 1 u ++ bullets 2 ++ sliceLast 1 u
  else bullets 3.

(** The stored array, or the empty one. *)
Definition orEmpty {A : Type} (stored : option (list A)) : list A :=
  match stored with
  | Some a => a
  | None => []
  end.

(** The newest [n] elements. *)
Definition newest {A : Type} (n : nat) (l : list A) : list A :=
  skipn (length l - n) l.

(** How often a site occurs in a list of activities. *)
Definition occurrences (s : string) (l : list Activity.Entry) : nat :=
  length (List.filter (fun a => String.eqb (Activity.site a) s) l).

(** How often a site occurs among the activities of the last hour. *)
Definition attempts (now : Z) (activities : list Activity.Entry)
           (s : string) : Z :=
  Z.of_nat (occurrences s (Activity.recentActivities now activities)).

(** The grant that the page script holds is unexpired and covers the
    capability. *)
Definition grantCovers (temporaryPermissions : option Guard.TempPerms)
           (now : Z) (c : Guard.Capability) : bool :=
  match temporaryPermissions with
  | Some t => (Guard.expiry t >? now) && Guard.covers t c
  | None => false
  end.

(** The capability that a device name of an access attempt stands for. *)
Definition capabilityOf (device : string) : option Guard.Capability :=
  if String.eqb device "video" || String.eqb device "webcam"
  then Some Guard.Webcam
  else if String.eqb device "audio" || String.eqb device "microphone"
  then Some Guard.Microphone
  else None.

(** The answer of the permission check from an unexpired grant. *)
Definition temporaryAnswer (s : Guard.Settings) (g : Guard.TempPerms)
  : Guard.Permissions :=
  {| Guard.webcamAllowed := Guard.webcam g && negb (Guard.webcamBlocked s);
     Guard.microphoneAllowed :=
       Guard.microphone g && negb (Guard.micBlocked s);
     Guard.reason := Guard.temporary;
     Guard.permExpiry := Some (Guard.expiry g) |}.

(** The manager as it finds the store on start. *)
Definition withStored (this : Guard.Manager)
           (stored : option (gmap string Guard.TempPerms)) : Guard.Manager :=
  {| Guard.settings := Guard.settings this;
     Guard.temporaryPermissions := Guard.temporaryPermissions this;
     Guard.storedPermissions := stored;
     Guard.storageWrites := Guard.storageWrites this |}.


End Notions.

Module LawSamples.

Import Js Itp ItpSamples.

Local Open Scope string_scope.
Local Open Scope list_scope.
Local Open Scope Z_scope.

(** A valid test card number, as typed with spaces. *)
Definition goodCard : str := lit "4111 1111 1111 1111".

(** Its preview. *)
Definition goodCardSample : str :=
  bullets 4 ++ lit " " ++ bullets 4 ++ lit " " ++ bullets 4 ++ lit " "
  ++ lit "1111".

Definition limitNegative : Settings :=
  {| enableProtection := true; showInlineTips := true;
     blockOnHighRisk := true; enableBreachChecks := false;
     requirePinForTrust := false; pinHash := None;
     trustedDomains := []; logLimit := -1 |}.

Definition emailField : Field :=
  {| value := lit " ann@mail.example "; contextText := lit "your email";
     inputType := "text" |}.

Definition passwordForm : Form :=
  {| actionAttr := None; actionHost := "";
     inputs := [ {| value := lit "hunter2"; contextText := lit "password";
                    inputType := "password" |} ] |}.

(** The default state with breach checks switched on. *)
Definition breachChecksOn : State :=
  {| SETTINGS :=
       {| enableProtection := true; showInlineTips := true;
          blockOnHighRisk := true; enableBreachChecks := true;
          requirePinForTrust := false; pinHash := None;
          trustedDomains := []; logLimit := 800 |};
     proceedOnceFlag := false; pendingFormToSubmit := None;
     modal := None |}.

(** A stand-in for the digest of the browser. *)
Definition sampleDigest (pin : str) : string :=
  if (length pin =? 4)%nat then "03ac67" else "e3b0c4".

(** Twelve attempts of one site and one of another, all at time 5000. *)
Definition attemptOf (s : string) : Activity.Entry :=
  {| Activity.timestamp := 5000; Activity.site := s;
     Activity.action := "blocked"; Activity.device := "video";
     Activity.userAgent := None |}.

Definition busyLog : list Activity.Entry :=
  repeat (attemptOf "track.example") 12 ++ [attemptOf "meet.example"].

(** A manager that has not loaded anything yet. *)
Definition freshManager : Guard.Manager :=
  {| Guard.settings := GuardSamples.openSettings;
     Guard.temporaryPermissions := ∅;
     Guard.storedPermissions := None;
     Guard.storageWrites := 0 |}.

(** A state with one trusted bank, where trusting asks for a PIN whose
    digest is stored. *)
Definition pinState : State :=
  {| SETTINGS :=
       {| enableProtection := true; showInlineTips := true;
          blockOnHighRisk := true; enableBreachChecks := false;
          requirePinForTrust := true; pinHash := Some "03ac67";
          trustedDomains := ["bank.example"]; logLimit := 800 |};
     proceedOnceFlag := false; pendingFormToSubmit := None;
     modal := None |}.

Definition rightPin : option str := Some (lit "1234").

(** Things that happen on the page after the host was trusted. *)
Definition laterEvents : list Event :=
  [Submitted 1 passwordForm; ProceedOnceClicked;
   Changed 2 emailField None; Submitted 3 passwordForm; BlockClicked;
   TrustClicked None].

End LawSamples.

(** ** Properties of the content script *)

Module ItpProofs.

Import Js Itp Spec ItpSamples.

Local Open Scope string_scope.
Local Open Scope list_scope.
Local Open Scope Z_scope.

(** *** The score and the level in closed form *)

Lemma computeRisk_score types https crossOrigin trusted :
  score (computeRisk types https crossOrigin trusted)
  = Z.max 0 (Z.min 100 (Z.min (sumWeights (newSet types)) 100
                        + penalties https crossOrigin trusted)).
Proof.
  unfold computeRisk, penalties.
  destruct https, crossOrigin, trusted; simpl; f_equal; f_equal; lia.
Qed.

Lemma computeRisk_level types https crossOrigin trusted :
  level (computeRisk types https crossOrigin trusted)
  = levelOf (score (computeRisk types https crossOrigin trusted)).
Proof.
  unfold computeRisk, levelOf.
  destruct https, crossOrigin, trusted; reflexivity.
Qed.

Lemma weightIn_nonneg tbl t :
  Forall (fun kw => 0 <= kw.2) tbl -> 0 <= weightIn tbl t.
Proof.
  induction 1 as [|[k w] tbl Hw _ IH]; simpl; [lia|].
  destruct (String.eqb k t); [exact Hw | exact IH].
Qed.

Lemma typeWeight_nonneg t : 0 <= typeWeight t.
Proof.
  apply weightIn_nonneg. unfold TYPE_WEIGHT.
  repeat constructor; simpl; lia.
Qed.

Lemma sumWeights_snoc s t :
  sumWeights (s ++ [t]) = sumWeights s + typeWeight t.
Proof. unfold sumWeights. rewrite fold_left_app. reflexivity. Qed.

Lemma newSet_snoc ts t : newSet (ts ++ [t]) = setAdd (newSet ts) t.
Proof. unfold newSet. rewrite fold_left_app. reflexivity. Qed.

Lemma sumWeights_setAdd s t : sumWeights s <= sumWeights (setAdd s t).
Proof.
  unfold setAdd. destruct (arrIncludes s t); [lia|].
  rewrite sumWeights_snoc. pose proof (typeWeight_nonneg t). lia.
Qed.

(** C1, as amended: with no sensitive type, a cross-origin form on an
    HTTPS page of an untrusted host scores 40 (20 for the cross-origin
    post and 20 for the untrusted host) and the level is moderate. *)
Theorem scenario_A_cross_origin_untrusted :
  let r := computeRisk [] true true false in
  score r = 40 /\ level r = Mod
  /\ reasons r = ["Form posts to different origin";
                  "Domain not in trusted list"].
Proof. repeat split. Qed.

(** C1, as stated, fails: the assessment of scenario A is not score 20
    with level low. *)
Lemma scenario_A_not_20_low :
  ~ (score (computeRisk [] true true false) = 20
     /\ level (computeRisk [] true true false) = Low).
Proof. intros [H _]. vm_compute in H. discriminate H. Qed.

(** C3: the level is high exactly when the score is at least 70, low
    exactly when it is below 40, and moderate exactly in between. *)
Theorem threshold_consistency types https crossOrigin trusted :
  let r := computeRisk types https crossOrigin trusted in
  (level r = High <-> 70 <= score r)
  /\ (level r = Low <-> score r < 40)
  /\ (level r = Mod <-> 40 <= score r < 70).
Proof.
  intros r. subst r. rewrite computeRisk_level. unfold levelOf.
  set (s := score _).
  destruct (Z.geb_spec s 70) as [H70|H70];
    [|destruct (Z.geb_spec s 40) as [H40|H40]];
    repeat split; intros; try discriminate; try lia; try reflexivity.
Qed.

(** C4: adding a type to the list never lowers the score, and the
    score of an untrusted host is never below that of a trusted one. *)
Theorem score_monotone types t https crossOrigin trusted :
  score (computeRisk types https crossOrigin trusted)
  <= score (computeRisk (types ++ [t]) https crossOrigin trusted)
  /\ score (computeRisk types https crossOrigin true)
     <= score (computeRisk types https crossOrigin false).
Proof.
  rewrite !computeRisk_score, newSet_snoc.
  pose proof (sumWeights_setAdd (newSet types) t).
  unfold penalties. split; destruct https, crossOrigin, trusted; lia.
Qed.

(** *** The check-digit gate of the classifier *)

Lemma luhn_loop digits sum flip :
  (fold_left luhnStep digits (sum, flip)).1
  = sum + mod10Sum flip (List.map digitValue digits).
Proof.
  revert sum flip. induction digits as [|c digits IH]; intros sum flip.
  - simpl. lia.
  - cbn [fold_left List.map mod10Sum].
    destruct (luhnStep (sum, flip) c) as [sum' flip'] eqn:E.
    rewrite IH. unfold luhnStep in E. injection E as Hs Hf. subst.
    unfold digitValue, doubled.
    replace ((Z.of_N c - 48) * 2) with (2 * (Z.of_N c - 48)) by lia.
    destruct flip; [destruct (Z.gtb_spec (2 * (Z.of_N c - 48)) 9)|];
      cbn [fst]; lia.
Qed.

(** [luhnCheck] is the mod-10 test on at least twelve digits. *)
Lemma luhnCheck_mod10 number :
  luhnCheck number
  = (12 <=? length (stripNonDigits number))%nat
    && passesMod10 (digitsOf number).
Proof.
  unfold luhnCheck, passesMod10, digitsOf.
  destruct (Nat.ltb_spec (length (stripNonDigits number)) 12) as [Hlt|Hge].
  - destruct (Nat.leb_spec 12 (length (stripNonDigits number)))
      as [Hle|_]; [lia|].
    reflexivity.
  - destruct (Nat.leb_spec 12 (length (stripNonDigits number)))
      as [_|Hgt]; [|lia].
    simpl. rewrite <- map_rev.
    pose proof (luhn_loop (rev (stripNonDigits number)) 0 false) as H.
    destruct (fold_left luhnStep _ _) as [sum b]. simpl in H.
    rewrite H. reflexivity.
Qed.

Lemma white_not_digit c : isWhite c = true -> isDigit c = false.
Proof.
  unfold isWhite, isDigit. intros H. apply andb_false_iff.
  rewrite !N.leb_gt.
  repeat rewrite orb_true_iff in H. repeat rewrite andb_true_iff in H.
  rewrite ?N.leb_le, ?N.eqb_eq in H. lia.
Qed.

Lemma digits_dropWhile s :
  stripNonDigits (dropWhile isWhite s) = stripNonDigits s.
Proof.
  induction s as [|c s IH]; [reflexivity|]. simpl.
  destruct (isWhite c) eqn:Hw; [|reflexivity].
  rewrite (white_not_digit c Hw). exact IH.
Qed.

(** Trimming a value leaves its digit sequence as it is. *)
Lemma digits_trim s : stripNonDigits (trim s) = stripNonDigits s.
Proof.
  unfold trim, stripNonDigits.
  rewrite filter_rev.
  fold (stripNonDigits (dropWhile isWhite (rev (dropWhile isWhite s)))).
  rewrite digits_dropWhile. unfold stripNonDigits.
  rewrite filter_rev, rev_involutive.
  apply digits_dropWhile.
Qed.

Lemma in_setAdd t t' set : In t (setAdd set t') -> In t set \/ t = t'.
Proof.
  unfold setAdd. destruct (arrIncludes set t'); [tauto|].
  rewrite in_app_iff. simpl. intuition.
Qed.

Lemma in_addIf t cond t' set :
  In t (addIf cond t' set) -> In t set \/ (cond = true /\ t = t').
Proof.
  unfold addIf. destruct cond; [|tauto].
  intros H. apply in_setAdd in H. tauto.
Qed.

(** Walk back through the conditional additions of [detectTypes] that
    add another tag than the one looked for. *)
Ltac skip_other_tags H :=
  repeat (apply in_addIf in H; destruct H as [H|[_ H]]; [|discriminate H]).

(** Walk back through all of them, closing each with [tac]. *)
Ltac each_tag H tac :=
  repeat (apply in_addIf in H; destruct H as [H|[_ H]]; [|subst; tac]).

(** The card-number tag is only added behind [luhnCheck]. *)
Lemma cardNumber_behind_luhn el :
  In "cardNumber" (detectTypes el) -> luhnCheck (trim (value el)) = true.
Proof.
  unfold detectTypes. intros H. skip_other_tags H.
  destruct (_ || _) in H.
  - apply in_addIf in H. destruct H as [H|[H _]].
    + skip_other_tags H. destruct H.
    + apply andb_true_iff in H. apply H.
  - skip_other_tags H. destruct H.
Qed.

(** Every tag that [detectTypes] emits is an own property of
    [TYPE_WEIGHT], so its weight is the one of the table. *)
Lemma detectTypes_tags el t :
  In t (detectTypes el) -> In t (List.map fst TYPE_WEIGHT).
Proof.
  unfold detectTypes. intros H.
  each_tag H ltac:(simpl; tauto).
  destruct (_ || _) in H.
  - each_tag H ltac:(simpl; tauto). destruct H.
  - each_tag H ltac:(simpl; tauto). destruct H.
Qed.

(** C9: a field value whose digit sequence fails the mod-10
    check-digit test is never tagged [cardNumber], whatever the
    card-number pattern and the card keywords say. *)
Theorem luhn_gate el :
  passesMod10 (digitsOf (value el)) = false ->
  ~ In "cardNumber" (detectTypes el).
Proof.
  intros Hfail Hin. apply cardNumber_behind_luhn in Hin.
  rewrite luhnCheck_mod10 in Hin. apply andb_true_iff in Hin.
  destruct Hin as [_ Hin]. unfold digitsOf in Hin, Hfail.
  rewrite digits_trim in Hin. congruence.
Qed.

(** An instance: the pattern and a keyword match, the check digit is
    wrong, and the tag is not emitted. *)
Lemma luhn_gate_witness :
  Re.test PATTERNS.cardNumber (trim (value badCardField)) = true
  /\ someIncluded KEYWORDS.cardNumber (contextText badCardField) = true
  /\ ~ In "cardNumber" (detectTypes badCardField).
Proof.
  split; [vm_compute; reflexivity|].
  split; [vm_compute; reflexivity|].
  apply (luhn_gate badCardField). vm_compute. reflexivity.
Defined.

(** *** The sample of a field-change entry *)

Lemma sliceLast_short n (s : str) :
  (length s <= n)%nat -> sliceLast n s = s.
Proof.
  intros Hle. unfold sliceLast.
  replace (length s - n)%nat with 0%nat by lia. reflexivity.
Qed.

(** A value of at most four units tagged [nin] or [bvn] is kept whole
    behind the bullets. *)
Lemma short_id_sample raw type :
  raw <> [] -> (length raw <= 4)%nat ->
  type = "nin" \/ type = "bvn" ->
  anonymizeSample raw type = Some (bullets 4 ++ raw).
Proof.
  intros Hne Hlen Htype. destruct raw as [|c raw]; [congruence|].
  unfold anonymizeSample.
  destruct Htype as [-> | ->]; simpl String.eqb; cbn [orb];
    by rewrite sliceLast_short.
Qed.

(** C5, at the failing input: the value ["12"] in a field tagged
    [nin] is logged with the sample of four bullets followed by
    ["12"], which holds the whole raw value. *)
Theorem short_nin_sample_holds_value :
  detectTypes shortNinField = ["nin"]
  /\ exists e,
       changeLogged (onChange somePage 0 initialState shortNinField None)
       = Some e
       /\ action e = "field-change"
       /\ sample e = Some (bullets 4 ++ lit "12")
       /\ (forall smp, sample e = Some smp ->
                       occursIn (value shortNinField) smp).
Proof.
  split; [vm_compute; reflexivity|].
  eexists. split; [vm_compute; reflexivity|].
  split; [reflexivity|]. split; [reflexivity|].
  intros smp Hs. injection Hs as <-.
  exists (bullets 4), []. reflexivity.
Qed.

(** *** The submit decision *)

(** C6, as amended: when protection is enabled and at least one
    sensitive type is detected in the form, the submission is blocked
    exactly when the level is high, blocking is enabled, the host is
    not trusted and no one-time override is pending, and in every
    other such case it proceeds and is logged as allowed; when
    protection is disabled or no type is detected, it proceeds with no
    log entry and the state is unchanged. *)
Theorem submit_decision_gated pg now st form :
  if enableProtection (SETTINGS st) && negb (isEmpty (formTypes form))
  then submitDecision pg now st form
  else onSubmit pg now st form
       = (st, {| defaultPrevented := false; submitLogged := None |}).
Proof.
  unfold submitDecision, blockCondition, formRisk, onSubmit.
  destruct (enableProtection (SETTINGS st)); [|reflexivity].
  destruct (isEmpty (formTypes form)); [reflexivity|]. simpl.
  set (r := computeRisk _ _ _ _).
  destruct (isHigh (level r)), (blockOnHighRisk (SETTINGS st)),
    (arrIncludes (trustedDomains (SETTINGS st)) (CURRENT_HOST pg)),
    (proceedOnceFlag st); simpl;
    unfold isBlocked, isAllowedAndLogged; simpl;
    (split; [split|]); intros; try discriminate;
    try (repeat split; eauto; fail);
    try (destruct H as [H _]; discriminate H).
Qed.

(** C6, as stated, fails: a form without sensitive fields goes through
    although the four conditions hold, and with protection switched
    off a submission that is not blocked is not logged either. *)
Lemma submit_decision_fails_outside_gates :
  (onSubmit httpPage 0 initialState emptyCrossForm
   = (initialState, {| defaultPrevented := false; submitLogged := None |})
   /\ ~ submitDecision httpPage 0 initialState emptyCrossForm)
  /\ (onSubmit somePage 0 protectionOff emailForm
      = (protectionOff,
         {| defaultPrevented := false; submitLogged := None |})
      /\ ~ submitDecision somePage 0 protectionOff emailForm).
Proof.
  split; (split; [reflexivity|]).
  - intros [[_ Hblock] _].
    assert (Hc : blockCondition httpPage initialState emptyCrossForm
                 = true) by (vm_compute; reflexivity).
    destruct (Hblock Hc) as [Hprev _]. vm_compute in Hprev.
    discriminate Hprev.
  - intros [_ Hallow].
    assert (Hc : blockCondition somePage protectionOff emailForm
                 = false) by (vm_compute; reflexivity).
    destruct (Hallow Hc) as [_ [e [He _]]]. vm_compute in He.
    discriminate He.
Qed.

(** *** The ring buffer *)

Lemma ringTrim_fits limit logs :
  Z.of_nat (length logs) <= limit -> ringTrim limit logs = Some logs.
Proof.
  intros Hle. destruct logs as [|e logs].
  - simpl in *. destruct (Z.gtb_spec 0 limit); [lia|reflexivity].
  - cbn [ringTrim].
    destruct (Z.gtb_spec (Z.of_nat (length (e :: logs))) limit);
      [lia|reflexivity].
Qed.

(** Below the capacity an append evicts nothing. *)
Lemma appendLog_below_limit SETTINGS logs entry :
  Z.of_nat (length logs)
  < orDefault (logLimit SETTINGS) (logLimit DEFAULT_SETTINGS) ->
  appendLog SETTINGS (Some logs) entry = Some (logs ++ [entry]).
Proof.
  intros Hlt. unfold appendLog. apply ringTrim_fits.
  rewrite length_app. change (length [entry]) with 1%nat. lia.
Qed.

Lemma orDefault_nonzero x : orDefault x 800 <> 0.
Proof. unfold orDefault. destruct (Z.eqb_spec x 0); lia. Qed.

(** C7: when the log already holds as many entries as its capacity
    ([logLimit], 800 by default), appending one entry evicts the
    oldest one, keeps the newer ones in order before the new entry,
    and leaves the number of entries at the capacity. *)
Theorem ring_buffer_full SETTINGS logs entry :
  Z.of_nat (length logs)
  = orDefault (logLimit SETTINGS) (logLimit DEFAULT_SETTINGS) ->
  exists oldest newer,
    logs = oldest :: newer
    /\ appendLog SETTINGS (Some logs) entry = Some (newer ++ [entry])
    /\ length (newer ++ [entry]) = length logs.
Proof.
  intros Hfull. unfold appendLog. rewrite <- Hfull.
  destruct logs as [|oldest newer].
  - exfalso. simpl in Hfull. symmetry in Hfull.
    exact (orDefault_nonzero _ Hfull).
  - exists oldest, newer. split; [reflexivity|].
    assert (Hlen : length (newer ++ [entry]) = length (oldest :: newer)).
    { rewrite length_app. simpl. lia. }
    split; [|exact Hlen].
    change ((oldest :: newer) ++ [entry])
      with (oldest :: (newer ++ [entry])).
    cbn [ringTrim].
    destruct (Z.gtb_spec (Z.of_nat (length (oldest :: newer ++ [entry])))
                         (Z.of_nat (length (oldest :: newer))))
      as [_|Hn].
    + apply ringTrim_fits. lia.
    + simpl in Hn, Hlen. lia.
Qed.

(** An instance: a capacity of two, two entries stored, a third one
    appended. *)
Lemma ring_buffer_full_witness :
  exists oldest newer,
    [entryAt 1; entryAt 2] = oldest :: newer
    /\ appendLog limitTwo (Some [entryAt 1; entryAt 2]) (entryAt 3)
       = Some (newer ++ [entryAt 3])
    /\ length (newer ++ [entryAt 3]) = length [entryAt 1; entryAt 2].
Proof.
  apply (ring_buffer_full limitTwo [entryAt 1; entryAt 2] (entryAt 3)).
  reflexivity.
Defined.

End ItpProofs.

(** ** Properties of the background manager *)

Module GuardProofs.

Import Guard GuardSamples Notions.

Local Open Scope string_scope.
Local Open Scope Z_scope.

(** *** The loop of the sweep *)

Lemma sweep_loop_lookup now l (m : gmap string TempPerms) b k :
  (fold_left (sweepStep now) l (m, b)).1 !! k
  = if existsb (fun e => bool_decide (e.1 = k) && expiredAt now e) l
    then None else m !! k.
Proof.
  revert m b. induction l as [|[k' g] l IH]; intros m b; [reflexivity|].
  cbn [fold_left existsb]. unfold sweepStep at 2.
  change (expiredAt now (k', g)) with (expiry g <=? now).
  cbn [fst snd].
  destruct (expiry g <=? now) eqn:Hexp; rewrite IH.
  - rewrite andb_true_r. case_bool_decide as Hk; simpl.
    + subst k'. rewrite lookup_delete_eq. by destruct (existsb _ l).
    + by rewrite lookup_delete_ne.
  - by rewrite andb_false_r.
Qed.

Lemma sweep_loop_flag now l (m : gmap string TempPerms) b :
  (fold_left (sweepStep now) l (m, b)).2 = b || existsb (expiredAt now) l.
Proof.
  revert m b. induction l as [|[k' g] l IH]; intros m b.
  - simpl. by rewrite orb_false_r.
  - cbn [fold_left existsb]. unfold sweepStep at 2.
    change (expiredAt now (k', g)) with (expiry g <=? now).
    cbn [fst snd]. destruct (expiry g <=? now); rewrite IH.
    + by destruct b.
    + reflexivity.
Qed.

Lemma expired_entry_iff now (m : gmap string TempPerms) k :
  existsb (fun e => bool_decide (e.1 = k) && expiredAt now e)
          (map_to_list m) = true
  <-> exists g, m !! k = Some g /\ expiry g <= now.
Proof.
  rewrite existsb_exists. split.
  - intros [[k' g] [Hin Hb]]. apply andb_true_iff in Hb.
    destruct Hb as [Hk He]. apply bool_decide_eq_true in Hk.
    simpl in Hk. subst k'. exists g. split.
    + by apply elem_of_map_to_list, list_elem_of_In.
    + unfold expiredAt in He. simpl in He. lia.
  - intros [g [Hg He]]. exists (k, g). split.
    + by apply list_elem_of_In, elem_of_map_to_list.
    + apply andb_true_iff. split; [by apply bool_decide_eq_true|].
      unfold expiredAt. simpl. lia.
Qed.

Lemma sweep_lookup_expired now (m : gmap string TempPerms) k g :
  m !! k = Some g -> expiry g <= now -> (sweep now m).1 !! k = None.
Proof.
  intros Hg He. unfold sweep. rewrite sweep_loop_lookup.
  assert (H : existsb (fun e => bool_decide (e.1 = k) && expiredAt now e)
                      (map_to_list m) = true)
    by (apply expired_entry_iff; eauto).
  by rewrite H.
Qed.

Lemma sweep_lookup_live now (m : gmap string TempPerms) k g :
  m !! k = Some g -> now < expiry g -> (sweep now m).1 !! k = Some g.
Proof.
  intros Hg He. unfold sweep. rewrite sweep_loop_lookup.
  destruct (existsb _ _) eqn:H; [|exact Hg].
  apply expired_entry_iff in H. destruct H as [g' [Hg' He']].
  rewrite Hg in Hg'. injection Hg' as <-. lia.
Qed.

Lemma sweep_lookup_sub now (m : gmap string TempPerms) k g :
  (sweep now m).1 !! k = Some g -> m !! k = Some g /\ now < expiry g.
Proof.
  unfold sweep. rewrite sweep_loop_lookup.
  destruct (existsb _ _) eqn:H; [discriminate|].
  intros Hg. split; [exact Hg|].
  destruct (Z.lt_ge_cases now (expiry g)) as [|Hle]; [assumption|].
  assert (Ht : existsb
                 (fun e => bool_decide (e.1 = k) && expiredAt now e)
                 (map_to_list m) = true)
    by (apply expired_entry_iff; eauto).
  congruence.
Qed.

Lemma sweep_flag_iff now (m : gmap string TempPerms) :
  (sweep now m).2 = true
  <-> exists k g, m !! k = Some g /\ expiry g <= now.
Proof.
  unfold sweep. rewrite sweep_loop_flag. simpl.
  rewrite existsb_exists. split.
  - intros [[k g] [Hin He]]. exists k, g. split.
    + by apply elem_of_map_to_list, list_elem_of_In.
    + unfold expiredAt in He. simpl in He. lia.
  - intros [k [g [Hg He]]]. exists (k, g). split.
    + by apply list_elem_of_In, elem_of_map_to_list.
    + unfold expiredAt. simpl. lia.
Qed.

Lemma sweep_nothing_expired now (m : gmap string TempPerms) :
  (forall k g, m !! k = Some g -> now < expiry g) ->
  sweep now m = (m, false).
Proof.
  intros Hlive.
  destruct (sweep now m) as [m' b] eqn:Hs. f_equal.
  - apply map_eq. intros k.
    change m' with (m', b).1. rewrite <- Hs.
    destruct (m !! k) as [g|] eqn:Hk.
    + apply (sweep_lookup_live now m k g Hk), (Hlive k g Hk).
    + destruct ((sweep now m).1 !! k) as [g|] eqn:Hk'; [|reflexivity].
      apply sweep_lookup_sub in Hk'. destruct Hk' as [Hk' _]. congruence.
  - destruct b; [|reflexivity].
    assert (Hb : (sweep now m).2 = true) by (by rewrite Hs).
    apply sweep_flag_iff in Hb. destruct Hb as [k [g [Hg He]]].
    specialize (Hlive k g Hg). lia.
Qed.

Lemma cleanup_perms this now :
  temporaryPermissions (cleanupExpiredPermissions this now)
  = (sweep now (temporaryPermissions this)).1.
Proof.
  unfold cleanupExpiredPermissions.
  destruct (sweep now (temporaryPermissions this)) as [m b].
  by destruct b.
Qed.

(** *** Temporary grants and the permission check *)

(** C2, as amended: if an unexpired temporary grant of a site covers a
    capability, the request is not one of a background tab under
    [autoBlockBackground], and the capability is not blocked in the
    global settings, then the permission check answers that the
    capability is allowed, for the reason [temporary]. *)
Theorem unexpired_grant_allows this now hostname g c isBackground :
  temporaryPermissions this !! hostname = Some g ->
  now < expiry g ->
  covers g c = true ->
  isBackground && autoBlockBackground (settings this) = false ->
  blocked (settings this) c = false ->
  let p := checkSitePermissions this now hostname isBackground in
  allowed p c = true /\ reason p = temporary
  /\ permExpiry p = Some (expiry g).
Proof.
  intros Hg Hlive Hcov Hbg Hblk p. subst p.
  unfold checkSitePermissions. rewrite Hbg, Hg.
  destruct (Z.gtb_spec (expiry g) now) as [_|Hle]; [|lia].
  repeat split. destruct c; simpl in *; rewrite Hcov, Hblk; reflexivity.
Qed.

(** An instance: nothing blocked globally, a foreground tab, a webcam
    grant that runs until 2000, asked at 1000. *)
Lemma unexpired_grant_allows_witness :
  let p := checkSitePermissions (openManager 2000) 1000
             "meet.example" false in
  allowed p Webcam = true /\ reason p = temporary
  /\ permExpiry p = Some 2000.
Proof.
  apply (unexpired_grant_allows (openManager 2000) 1000 "meet.example"
           (camGrant 2000) Webcam false).
  - apply lookup_singleton_eq.
  - simpl. lia.
  - reflexivity.
  - reflexivity.
  - reflexivity.
Defined.

(** C2, as stated, fails: an unexpired grant that covers the webcam
    does not make the check allow the webcam for a background tab
    under [autoBlockBackground], nor while the webcam is blocked in
    the global settings. *)
Lemma unexpired_grant_not_always_allowed :
  (temporaryPermissions (openManager 2000) !! "meet.example"
   = Some (camGrant 2000)
   /\ 1000 < expiry (camGrant 2000)
   /\ covers (camGrant 2000) Webcam = true
   /\ allowed (checkSitePermissions (openManager 2000) 1000
                 "meet.example" true) Webcam = false)
  /\ (temporaryPermissions (blockingManager 2000) !! "meet.example"
      = Some (camGrant 2000)
      /\ allowed (checkSitePermissions (blockingManager 2000) 1000
                    "meet.example" false) Webcam = false).
Proof.
  assert (Hl : ({["meet.example" := camGrant 2000]}
                : gmap string TempPerms) !! "meet.example"
               = Some (camGrant 2000)) by apply lookup_singleton_eq.
  split; [split; [exact Hl|split; [simpl; lia|split; [reflexivity|]]]
         |split; [exact Hl|]].
  - reflexivity.
  - unfold checkSitePermissions. simpl. rewrite Hl. reflexivity.
Qed.

(** C8, as amended: a grant whose expiry is not strictly in the future
    is never used by the permission check, which answers with the
    background-tab denial for a background tab under
    [autoBlockBackground] and from the global settings otherwise; and
    the sweep removes the grant from the map and from the store it
    writes back. *)
Theorem expired_grant_inert this now hostname g isBackground :
  temporaryPermissions this !! hostname = Some g ->
  expiry g <= now ->
  checkSitePermissions this now hostname isBackground
  = (if isBackground && autoBlockBackground (settings this)
     then backgroundAnswer else globalAnswer (settings this))
  /\ temporaryPermissions (cleanupExpiredPermissions this now)
     !! hostname = None
  /\ exists stored,
       storedPermissions (cleanupExpiredPermissions this now)
       = Some stored
       /\ stored !! hostname = None.
Proof.
  intros Hg Hexp. split; [|split].
  - unfold checkSitePermissions.
    destruct (isBackground && autoBlockBackground (settings this));
      [reflexivity|].
    rewrite Hg. destruct (Z.gtb_spec (expiry g) now); [lia|reflexivity].
  - rewrite cleanup_perms. by apply (sweep_lookup_expired now _ _ g).
  - unfold cleanupExpiredPermissions.
    pose proof (sweep_lookup_expired now _ _ g Hg Hexp) as Hnone.
    assert (Hflag : (sweep now (temporaryPermissions this)).2 = true)
      by (apply sweep_flag_iff; eauto).
    destruct (sweep now (temporaryPermissions this)) as [m b].
    simpl in Hnone, Hflag. subst b. simpl. eauto.
Qed.

(** An instance: the grant ends at 1000 and the check and the sweep run
    at 1000. *)
Lemma expired_grant_inert_witness :
  checkSitePermissions (openManager 1000) 1000 "meet.example" false
  = globalAnswer openSettings
  /\ temporaryPermissions
       (cleanupExpiredPermissions (openManager 1000) 1000)
     !! "meet.example" = None
  /\ exists stored,
       storedPermissions
         (cleanupExpiredPermissions (openManager 1000) 1000)
       = Some stored
       /\ stored !! "meet.example" = None.
Proof.
  apply (expired_grant_inert (openManager 1000) 1000 "meet.example"
           (camGrant 1000) false).
  - apply lookup_singleton_eq.
  - simpl. lia.
Defined.

(** C8, as stated, fails: for a background tab under
    [autoBlockBackground] the check of a site with an expired grant
    does not fall through to the global settings. *)
Lemma expired_grant_background_not_global :
  temporaryPermissions (openManager 1000) !! "meet.example"
  = Some (camGrant 1000)
  /\ expiry (camGrant 1000) <= 1000
  /\ checkSitePermissions (openManager 1000) 1000 "meet.example" true
     <> globalAnswer (settings (openManager 1000)).
Proof.
  split; [apply lookup_singleton_eq|]. split; [simpl; lia|].
  unfold checkSitePermissions. simpl. discriminate.
Qed.

(** *** The frame of the sweep *)




End GuardProofs.

(** ** Further properties of the content script *)

Module ItpLaws.

Import Js Itp Spec ItpSamples ItpProofs Notions LawSamples.

Local Open Scope string_scope.
Local Open Scope list_scope.
Local Open Scope Z_scope.

(** *** The score *)

Lemma score_in_range types https crossOrigin trusted :
  0 <= score (computeRisk types https crossOrigin trusted) <= 100.
Proof. rewrite computeRisk_score. lia. Qed.

(** The score lies between 0 and 100, whatever is detected and whatever
    the context: the sum of the weights is capped before the penalties
    and the total is clamped after them. *)
Theorem score_bounded types https crossOrigin trusted :
  0 <= score (computeRisk types https crossOrigin trusted) <= 100
  /\ score (computeRisk types https crossOrigin trusted)
     = Z.min 100 (Z.min (sumWeights (newSet types)) 100
                  + penalties https crossOrigin trusted).
Proof.
  split; [apply score_in_range|].
  rewrite computeRisk_score.
  assert (0 <= sumWeights (newSet types)).
  { generalize (newSet types). intros l. unfold sumWeights.
    assert (H : forall base, 0 <= base ->
                  0 <= fold_left (fun b t => b + typeWeight t) l base).
    { induction l as [|t l IH]; intros base Hb; [exact Hb|].
      cbn [fold_left]. apply IH. pose proof (typeWeight_nonneg t). lia. }
    apply H. lia. }
  unfold penalties. destruct https, crossOrigin, trusted; lia.
Qed.

Lemma arrIncludes_In arr x : arrIncludes arr x = true <-> In x arr.
Proof.
  unfold arrIncludes. rewrite existsb_exists. split.
  - intros [y [Hin Heq]]. apply String.eqb_eq in Heq. by subst.
  - intros Hin. exists x. split; [exact Hin|apply String.eqb_refl].
Qed.

Lemma setAdd_In set t x : In x (setAdd set t) <-> In x set \/ x = t.
Proof.
  unfold setAdd. destruct (arrIncludes set t) eqn:Hin.
  - apply arrIncludes_In in Hin. split; [tauto|]. intros [H| ->]; assumption.
  - rewrite in_app_iff. simpl. intuition.
Qed.

Lemma setAdd_NoDup set t : NoDup set -> NoDup (setAdd set t).
Proof.
  intros Hnd. unfold setAdd. destruct (arrIncludes set t) eqn:Hin; [exact Hnd|].
  apply NoDup_app. split; [exact Hnd|]. split.
  - intros x Hx Hx'. apply list_elem_of_In in Hx, Hx'.
    destruct Hx' as [<-|[]].
    apply arrIncludes_In in Hx. congruence.
  - apply NoDup_singleton.
Qed.

Lemma fold_setAdd_In ts set x :
  In x (fold_left setAdd ts set) <-> In x set \/ In x ts.
Proof.
  revert set. induction ts as [|t ts IH]; intros set; simpl; [tauto|].
  rewrite IH, setAdd_In. intuition.
Qed.

Lemma fold_setAdd_NoDup ts set :
  NoDup set -> NoDup (fold_left setAdd ts set).
Proof.
  revert set. induction ts as [|t ts IH]; intros set Hnd; simpl; [exact Hnd|].
  apply IH, setAdd_NoDup, Hnd.
Qed.

Lemma newSet_In ts x : In x (newSet ts) <-> In x ts.
Proof. unfold newSet. rewrite fold_setAdd_In. simpl. tauto. Qed.

Lemma newSet_NoDup ts : NoDup (newSet ts).
Proof. apply fold_setAdd_NoDup, NoDup_nil_2. Qed.

Lemma sumWeights_from base l :
  fold_left (fun b t => b + typeWeight t) l base
  = base + sumWeights l.
Proof.
  unfold sumWeights. revert base. induction l as [|t l IH]; intros base.
  - simpl. lia.
  - cbn [fold_left].
    rewrite (IH (base + typeWeight t)), (IH (0 + typeWeight t)). lia.
Qed.

Lemma sumWeights_cons t l : sumWeights (t :: l) = typeWeight t + sumWeights l.
Proof. unfold sumWeights at 1. simpl. apply sumWeights_from. Qed.

Lemma sumWeights_perm l l' : l ≡ₚ l' -> sumWeights l = sumWeights l'.
Proof.
  induction 1 as [|x l l' _ IH|x y l|l l' l'' _ IH1 _ IH2].
  - reflexivity.
  - rewrite !sumWeights_cons. lia.
  - rewrite !sumWeights_cons. lia.
  - congruence.
Qed.

Lemma sumWeights_member t l : In t l -> typeWeight t <= sumWeights l.
Proof.
  induction l as [|x l IH]; [intros []|].
  rewrite sumWeights_cons. intros [->|Hin].
  - assert (0 <= sumWeights l).
    { clear. induction l as [|y l IH]; [reflexivity|].
      rewrite sumWeights_cons. pose proof (typeWeight_nonneg y). lia. }
    lia.
  - pose proof (typeWeight_nonneg x). specialize (IH Hin). lia.
Qed.

(** The score and the level depend on the set of types only: neither
    the order of the list nor repetitions in it matter. *)
Theorem score_of_set types types' https crossOrigin trusted :
  (forall t, In t types <-> In t types') ->
  score (computeRisk types https crossOrigin trusted)
  = score (computeRisk types' https crossOrigin trusted)
  /\ level (computeRisk types https crossOrigin trusted)
     = level (computeRisk types' https crossOrigin trusted).
Proof.
  intros Hsame.
  assert (Hs : score (computeRisk types https crossOrigin trusted)
               = score (computeRisk types' https crossOrigin trusted)).
  { rewrite !computeRisk_score. do 3 f_equal. f_equal.
    apply sumWeights_perm, NoDup_Permutation; try apply newSet_NoDup.
    intros t. rewrite !list_elem_of_In, !newSet_In. apply Hsame. }
  split; [exact Hs|]. rewrite !computeRisk_level. by rewrite Hs.
Qed.

(** One type of weight 70 or more makes the level high, whatever else
    is detected and whatever the context. *)
Theorem heavy_type_is_high types t https crossOrigin trusted :
  In t types -> 70 <= typeWeight t ->
  level (computeRisk types https crossOrigin trusted) = High.
Proof.
  intros Hin Hw. rewrite computeRisk_level, computeRisk_score.
  apply newSet_In, sumWeights_member in Hin.
  unfold levelOf, penalties.
  destruct (Z.geb_spec (Z.max 0 (Z.min 100
              (Z.min (sumWeights (newSet types)) 100
               + ((if https then 0 else 30)
                  + (if crossOrigin then 20 else 0)
                  + (if trusted then 0 else 20))))) 70) as [_|Hlt];
    [reflexivity|].
  destruct https, crossOrigin, trusted; lia.
Qed.

(** An assessment without reasons has score 0 and level low: every
    positive score comes with a reason. *)
Theorem no_reason_no_score types https crossOrigin trusted :
  reasons (computeRisk types https crossOrigin trusted) = [] ->
  score (computeRisk types https crossOrigin trusted) = 0
  /\ level (computeRisk types https crossOrigin trusted) = Low.
Proof.
  intros Hr.
  assert (Hctx : newSet types = [] /\ https = true
                 /\ crossOrigin = false /\ trusted = true).
  { unfold computeRisk in Hr.
    destruct (newSet types) as [|t0 ts0]; simpl in Hr;
      destruct https, crossOrigin, trusted; simpl in Hr;
      try discriminate Hr; auto. }
  destruct Hctx as (Hn & -> & -> & ->).
  rewrite computeRisk_level, computeRisk_score, Hn. split; reflexivity.
Qed.

(** *** The check digit *)

Lemma mod10Sum_app double a b :
  mod10Sum double (a ++ b)
  = mod10Sum double a + mod10Sum (xorb double (Nat.odd (length a))) b.
Proof.
  revert double. induction a as [|d a IH]; intros double.
  - simpl. destruct double; reflexivity.
  - cbn [app mod10Sum length]. rewrite IH, Nat.odd_succ.
    rewrite <- Nat.negb_odd. destruct double, (Nat.odd (length a)); simpl; lia.
Qed.

Lemma doubled_range d : 0 <= d <= 9 -> 0 <= doubled d <= 9.
Proof. unfold doubled. destruct (Z.gtb_spec (2 * d) 9); lia. Qed.

Lemma doubled_inj d d' :
  0 <= d <= 9 -> 0 <= d' <= 9 -> doubled d = doubled d' -> d = d'.
Proof.
  unfold doubled.
  destruct (Z.gtb_spec (2 * d) 9), (Z.gtb_spec (2 * d') 9); lia.
Qed.

Lemma digitValue_range c : isDigit c = true -> 0 <= digitValue c <= 9.
Proof.
  unfold isDigit, digitValue. rewrite andb_true_iff, !N.leb_le. lia.
Qed.

Lemma digitsOf_app a b : digitsOf (a ++ b) = digitsOf a ++ digitsOf b.
Proof.
  unfold digitsOf, stripNonDigits. by rewrite List.filter_app, List.map_app.
Qed.

Lemma digitsOf_digit c s :
  isDigit c = true -> digitsOf (c :: s) = digitValue c :: digitsOf s.
Proof. intros Hc. unfold digitsOf, stripNonDigits. simpl. by rewrite Hc. Qed.

(** The mod-10 sums of two digit sequences that differ in one place
    differ by less than 10 and are not equal. *)
Lemma mod10Sum_one_digit a b d d' :
  0 <= d <= 9 -> 0 <= d' <= 9 -> d <> d' ->
  exists delta,
    mod10Sum false (rev (a ++ d :: b))
    = mod10Sum false (rev (a ++ d' :: b)) + delta
    /\ -9 <= delta <= 9 /\ delta <> 0.
Proof.
  intros Hd Hd' Hne.
  rewrite !rev_app_distr. cbn [rev]. rewrite <- !app_assoc. cbn [app].
  rewrite !mod10Sum_app. cbn [mod10Sum].
  set (dbl := xorb false (Nat.odd (length (rev b)))).
  destruct dbl.
  - exists (doubled d - doubled d'). split; [lia|].
    pose proof (doubled_range d Hd) as Hr.
    pose proof (doubled_range d' Hd') as Hr'.
    split; [lia|]. intros Hz. apply Hne, doubled_inj; [assumption..|lia].
  - exists (d - d'). split; [lia|]. split; lia.
Qed.

(** A number that passes [luhnCheck] fails it when one of its digits
    is replaced by another digit. *)
Theorem luhn_detects_one_wrong_digit pre post d d' :
  isDigit d = true -> isDigit d' = true -> d <> d' ->
  luhnCheck (pre ++ d :: post) = true ->
  luhnCheck (pre ++ d' :: post) = false.
Proof.
  intros Hd Hd' Hne. rewrite !luhnCheck_mod10.
  intros Hok. apply andb_true_iff in Hok. destruct Hok as [_ Hok].
  apply andb_false_iff. right.
  unfold passesMod10 in *.
  rewrite !digitsOf_app, !digitsOf_digit in * by assumption.
  destruct (mod10Sum_one_digit (digitsOf pre) (digitsOf post)
              (digitValue d) (digitValue d'))
    as (delta & Hsum & Hrange & Hnz).
  - by apply digitValue_range.
  - by apply digitValue_range.
  - unfold digitValue. intros Heq. apply Hne. lia.
  - apply Z.eqb_eq in Hok. apply Z.eqb_neq. intros Hok'.
    rewrite Hsum in Hok.
    set (s' := mod10Sum false _) in *.
    pose proof (Z.div_mod s' 10 ltac:(lia)).
    pose proof (Z.div_mod (s' + delta) 10 ltac:(lia)). lia.
Qed.

(** *** The classifier *)

Lemma addIf_NoDup cond t set : NoDup set -> NoDup (addIf cond t set).
Proof. unfold addIf. destruct cond; [apply setAdd_NoDup|done]. Qed.

Lemma addIf_keeps x cond t set : In x set -> In x (addIf cond t set).
Proof.
  unfold addIf. destruct cond; [|done]. intros H. apply setAdd_In. by left.
Qed.

Lemma addIf_adds t set : In t (addIf true t set).
Proof. unfold addIf. apply setAdd_In. by right. Qed.

(** The tags of a field are pairwise different and each of them has a
    rule in [detectTypes]; [bankCode], which has a weight and keywords,
    is never among them. *)
Theorem detectTypes_tags_distinct_and_known el :
  NoDup (detectTypes el)
  /\ (forall t, In t (detectTypes el) -> In t detectable)
  /\ ~ In "bankCode" (detectTypes el).
Proof.
  assert (Hknown : forall t, In t (detectTypes el) -> In t detectable).
  { unfold detectTypes. intros t H.
    each_tag H ltac:(simpl; tauto).
    destruct (_ || _) in H; each_tag H ltac:(simpl; tauto); destruct H. }
  split; [|split; [exact Hknown|]].
  - unfold detectTypes. repeat apply addIf_NoDup.
    destruct (_ || _); repeat apply addIf_NoDup; apply NoDup_nil_2.
  - intros H. apply Hknown in H. simpl in H.
    repeat (destruct H as [H|H]; [discriminate H|]). exact H.
Qed.

(** A field is tagged [cardNumber] exactly when the pattern or a card
    keyword matches, its value has 13 to 19 digits and the digits pass
    [luhnCheck]. *)
Theorem cardNumber_iff el :
  In "cardNumber" (detectTypes el)
  <-> cardEvidence el = true
      /\ (13 <= length (stripNonDigits (value el)) <= 19)%nat
      /\ luhnCheck (value el) = true.
Proof.
  assert (Hluhn : luhnCheck (trim (value el)) = luhnCheck (value el)).
  { unfold luhnCheck. by rewrite digits_trim. }
  rewrite <- Hluhn, <- (digits_trim (value el)).
  unfold detectTypes, cardEvidence. split.
  - intros H. skip_other_tags H.
    destruct (_ || _) in H |- *.
    + apply in_addIf in H. destruct H as [H|[H _]].
      * skip_other_tags H. destruct H.
      * apply andb_true_iff in H. destruct H as [H Hl].
        apply andb_true_iff in H. destruct H as [H13 H19].
        apply Nat.leb_le in H13, H19. auto.
    + skip_other_tags H. destruct H.
  - intros (Hev & [H13 H19] & Hl).
    do 9 apply addIf_keeps. rewrite Hev.
    apply Nat.leb_le in H13, H19. rewrite H13, H19, Hl. apply addIf_adds.
Qed.

(** *** The masked preview *)

Lemma digits_app a b :
  stripNonDigits (a ++ b) = stripNonDigits a ++ stripNonDigits b.
Proof. apply List.filter_app. Qed.

Lemma digits_bullets n : stripNonDigits (bullets n) = [].
Proof. induction n as [|n IH]; [reflexivity|exact IH]. Qed.

Lemma digits_length_le s : (length (stripNonDigits s) <= length s)%nat.
Proof.
  induction s as [|c s IH]; simpl; [lia|]. destruct (isDigit c); simpl; lia.
Qed.

Lemma sliceLast_length n (s : str) : (length (sliceLast n s) <= n)%nat.
Proof. unfold sliceLast. rewrite length_skipn. lia. Qed.

Lemma digits_sliceLast n s : (length (stripNonDigits (sliceLast n s)) <= n)%nat.
Proof.
  pose proof (digits_length_le (sliceLast n s)).
  pose proof (sliceLast_length n s). lia.
Qed.

Lemma digits_firstn n s : (length (stripNonDigits (firstn n s)) <= n)%nat.
Proof.
  pose proof (digits_length_le (firstn n s)).
  pose proof (length_firstn n s) as Hlen. rewrite Hlen in H. lia.
Qed.

(** For every type but [email], the preview holds at most four digits,
    so a value with five or more digits never occurs whole in it. *)
Theorem sample_keeps_four_digits value type smp :
  type <> "email" ->
  anonymizeSample value type = Some smp ->
  (length (stripNonDigits smp) <= 4)%nat
  /\ ((5 <= length (stripNonDigits value))%nat -> ~ occursIn value smp).
Proof.
  intros Hne Hs.
  assert (Hfour : (length (stripNonDigits smp) <= 4)%nat).
  { unfold anonymizeSample in Hs.
    destruct value as [|c0 value0]; [discriminate|].
    cbv beta iota zeta in Hs. remember (c0 :: value0) as raw eqn:Hraw.
    clear Hraw.
    pose proof (digits_sliceLast 4 (stripNonDigits raw)) as H4d.
    pose proof (digits_sliceLast 4 raw) as H4r.
    pose proof (digits_sliceLast 1 raw) as H1r.
    pose proof (digits_firstn 1 raw) as H1f.
    apply String.eqb_neq in Hne.
    destruct (String.eqb type "cardNumber");
      [|destruct (String.eqb type "bankAccount");
        [|destruct (String.eqb type "nin" || String.eqb type "bvn");
          [|rewrite Hne in Hs; destruct (String.eqb type "phone")]]];
      apply (inj Some) in Hs; rewrite <- Hs; clear Hs;
      repeat match goal with
             | |- context [if ?b then _ else _] => destruct b
             end;
      rewrite ?digits_app, ?length_app, ?digits_bullets;
      change (stripNonDigits (lit " ")) with (@nil N);
      change (stripNonDigits (lit "Acct ")) with (@nil N);
      cbn [length]; lia. }
  split; [exact Hfour|].
  intros Hfive (pre & post & ->).
  rewrite !digits_app, !length_app in Hfour. lia.
Qed.

Lemma split_none sep s : ~ In sep s -> split sep s = [s].
Proof.
  induction s as [|c s IH]; [reflexivity|]. intros Hnot. simpl.
  destruct (N.eqb_spec c sep) as [->|_]; [exfalso; apply Hnot; by left|].
  rewrite IH; [reflexivity|]. intros Hin. apply Hnot. by right.
Qed.

Lemma split_first sep u r :
  ~ In sep u -> split sep (u ++ sep :: r) = u :: split sep r.
Proof.
  induction u as [|c u IH]; intros Hnot.
  - simpl. by rewrite N.eqb_refl.
  - simpl. destruct (N.eqb_spec c sep) as [->|_];
      [exfalso; apply Hnot; by left|].
    rewrite IH; [reflexivity|]. intros Hin. apply Hnot. by right.
Qed.

(** The e-mail preview keeps the part after the separator as it is,
    behind a mask that shows at most the first and the last unit of the
    part before it. *)
Theorem email_sample_keeps_domain u d :
  ~ In 64%N u -> ~ In 64%N d -> d <> [] ->
  anonymizeSample (u ++ 64%N :: d) "email"
  = Some (userMask u ++ lit "@" ++ d).
Proof.
  intros Hu Hd Hne. unfold anonymizeSample, userMask.
  destruct (u ++ 64%N :: d) as [|c0 v0] eqn:Hv;
    [destruct u; discriminate Hv|].
  rewrite <- Hv. simpl String.eqb. cbn iota.
  rewrite (split_first 64%N u d Hu), (split_none 64%N d Hd).
  destruct d as [|c d]; [congruence|]. reflexivity.
Qed.

(** *** The log *)

Lemma ringTrim_newest limit logs :
  0 <= limit ->
  ringTrim limit logs = Some (newest (Z.to_nat limit) logs).
Proof.
  intros Hlim. unfold newest. induction logs as [|e logs IH].
  - simpl. destruct (Z.gtb_spec 0 limit); [lia|reflexivity].
  - cbn [ringTrim].
    destruct (Z.gtb_spec (Z.of_nat (length (e :: logs))) limit) as [Hgt|Hle].
    + rewrite IH. f_equal. cbn [length] in *.
      replace (S (length logs) - Z.to_nat limit)%nat
        with (S (length logs - Z.to_nat limit)) by lia.
      reflexivity.
    + cbn [length] in *.
      replace (S (length logs) - Z.to_nat limit)%nat with 0%nat by lia.
      reflexivity.
Qed.

(** For every non-negative [logLimit], [appendLog] returns: it stores
    the new entry last, behind the newest of the old entries, and the
    stored array is never longer than the capacity ([logLimit], or 800
    when that is 0). *)
Theorem appendLog_bounded SETTINGS itpLogs entry :
  0 <= logLimit SETTINGS ->
  let capacity :=
    Z.to_nat (orDefault (logLimit SETTINGS) (logLimit DEFAULT_SETTINGS)) in
  appendLog SETTINGS itpLogs entry
  = Some (newest (capacity - 1) (orEmpty itpLogs) ++ [entry])
  /\ (length (newest (capacity - 1) (orEmpty itpLogs) ++ [entry])
      <= capacity)%nat.
Proof.
  intros Hlim capacity.
  assert (Hcap : (1 <= capacity)%nat).
  { subst capacity. unfold orDefault.
    destruct (Z.eqb_spec (logLimit SETTINGS) 0); simpl; lia. }
  unfold appendLog. fold (orEmpty itpLogs).
  rewrite ringTrim_newest
    by (unfold orDefault; destruct (Z.eqb_spec (logLimit SETTINGS) 0);
        simpl; lia).
  fold capacity. unfold newest. rewrite length_app. cbn [length].
  split.
  - f_equal. rewrite skipn_app.
    replace (length (orEmpty itpLogs) + 1 - capacity)%nat
      with (length (orEmpty itpLogs) - (capacity - 1))%nat by lia.
    f_equal.
    replace (length (orEmpty itpLogs) - (capacity - 1)
             - length (orEmpty itpLogs))%nat with 0%nat by lia.
    reflexivity.
  - rewrite length_app, length_skipn. cbn [length]. lia.
Qed.

Lemma ringTrim_negative limit logs : limit < 0 -> ringTrim limit logs = None.
Proof.
  intros Hneg. induction logs as [|e logs IH].
  - simpl. destruct (Z.gtb_spec 0 limit); [reflexivity|lia].
  - cbn [ringTrim].
    destruct (Z.gtb_spec (Z.of_nat (length (e :: logs))) limit); [exact IH|lia].
Qed.

(** Under a negative [logLimit] the loop of [appendLog] never ends:
    nothing is written and the promise is never resolved. *)
Theorem appendLog_negative_limit SETTINGS itpLogs entry :
  logLimit SETTINGS < 0 -> appendLog SETTINGS itpLogs entry = None.
Proof.
  intros Hneg. unfold appendLog. apply ringTrim_negative.
  unfold orDefault. destruct (Z.eqb_spec (logLimit SETTINGS) 0); lia.
Qed.

(** *** What the handlers log and send *)

Lemma formTypes_NoDup form : NoDup (formTypes form).
Proof.
  unfold formTypes.
  assert (H : forall els set, NoDup set ->
              NoDup (fold_left
                       (fun types el => fold_left setAdd (detectTypes el) types)
                       els set)).
  { induction els as [|el els IH]; intros set Hnd; [exact Hnd|].
    simpl. apply IH, fold_setAdd_NoDup, Hnd. }
  apply H, NoDup_nil_2.
Qed.

Lemma isEmpty_false {A : Type} (l : list A) : isEmpty l = false <-> l <> [].
Proof. destruct l; simpl; split; congruence. Qed.

(** Every entry that the submit handler logs is written with protection
    on, for a form with at least one detected type and no repeated one,
    with a risk between 0 and 100 and the level of that risk, without a
    sample; it says [blocked-submit] exactly when the event was
    cancelled and [allowed-submit] otherwise. *)
Theorem submit_entry_sound pg now st form e :
  submitLogged (onSubmit pg now st form).2 = Some e ->
  enableProtection (SETTINGS st) = true
  /\ types e = formTypes form /\ types e <> [] /\ NoDup (types e)
  /\ 0 <= risk e <= 100 /\ logLevel e = levelOf (risk e)
  /\ sample e = None /\ ts e = now /\ host e = CURRENT_HOST pg
  /\ action e = (if defaultPrevented (onSubmit pg now st form).2
                 then "blocked-submit" else "allowed-submit").
Proof.
  unfold onSubmit.
  destruct (enableProtection (SETTINGS st)); [|discriminate].
  destruct (isEmpty (formTypes form)) eqn:Hty; [discriminate|].
  apply isEmpty_false in Hty. cbn [negb].
  set (r := computeRisk _ _ _ _).
  pose proof (score_in_range (formTypes form) (isHTTPS pg)
                (crossOriginOf pg (formActionHostOf pg (Some form)))
                (arrIncludes (trustedDomains (SETTINGS st))
                             (CURRENT_HOST pg))) as Hb.
  pose proof (computeRisk_level (formTypes form) (isHTTPS pg)
                (crossOriginOf pg (formActionHostOf pg (Some form)))
                (arrIncludes (trustedDomains (SETTINGS st))
                             (CURRENT_HOST pg))) as Hl.
  fold r in Hb, Hl. pose proof (formTypes_NoDup form) as Hnd.
  destruct (_ && _); cbn [snd fst submitLogged defaultPrevented];
    intros He; apply (inj Some) in He; subst e; cbn; auto 12.
Qed.

(** The input handler asks for a breach check only when protection and
    breach checks are both switched on, and only for the trimmed value
    of a field whose value matches the e-mail pattern. *)
Theorem breach_check_opt_in pg now st el f v :
  breachCheck (onChange pg now st el f) = Some v ->
  enableProtection (SETTINGS st) = true
  /\ enableBreachChecks (SETTINGS st) = true
  /\ v = trim (value el)
  /\ Re.test PATTERNS.email v = true
  /\ In "email" (detectTypes el).
Proof.
  unfold onChange.
  destruct (enableProtection (SETTINGS st)); [|discriminate].
  cbn [negb]. destruct (isEmpty (detectTypes el)); [discriminate|].
  cbn [breachCheck].
  destruct (enableBreachChecks (SETTINGS st)); [|discriminate].
  destruct (arrIncludes (detectTypes el) "email") eqn:Hin; [|discriminate].
  cbn [andb]. destruct (Re.test PATTERNS.email (trim (value el))) eqn:Hre;
    [|discriminate].
  intros Hv. apply (inj Some) in Hv. subst v.
  apply arrIncludes_In in Hin. auto.
Qed.

(** *** Trusting a domain *)

Section TrustLaws.

Variable sha256Hex : str -> string.

(** With no PIN required, trusting always succeeds; with a PIN required
    it succeeds exactly when a non-empty PIN was entered, a non-empty
    hash is stored and the digest of the PIN equals it.  A failed
    attempt saves nothing and leaves the state as it was. *)
Theorem trust_succeeds_iff pg st pin :
  let out := trustCurrentDomainWithOptionalPIN sha256Hex pg st pin in
  (trustOk out = true <->
   requirePinForTrust (SETTINGS st) = false
   \/ exists p h, pin = Some p /\ p <> [] /\ pinHash (SETTINGS st) = Some h
                  /\ h <> "" /\ sha256Hex p = h)
  /\ (trustOk out = false ->
      trustState out = st /\ settingsSaved out = false).
Proof.
  intros out. subst out.
  assert (Hpin : pinAccepted sha256Hex (SETTINGS st) pin = true <->
                 requirePinForTrust (SETTINGS st) = false
                 \/ exists p h, pin = Some p /\ p <> []
                                /\ pinHash (SETTINGS st) = Some h
                                /\ h <> "" /\ sha256Hex p = h).
  { unfold pinAccepted.
    destruct (requirePinForTrust (SETTINGS st)); [|tauto].
    split.
    - destruct pin as [[|c p]|]; try discriminate.
      destruct (pinHash (SETTINGS st)) as [h|]; [|discriminate].
      intros H. apply andb_true_iff in H. destruct H as [Hh Heq].
      apply negb_true_iff, String.eqb_neq in Hh. apply String.eqb_eq in Heq.
      right. exists (c :: p), h. auto.
    - intros [H|(p & h & -> & Hp & -> & Hh & Heq)]; [discriminate|].
      destruct p as [|c p]; [congruence|].
      apply andb_true_iff. split.
      + by apply negb_true_iff, String.eqb_neq.
      + by apply String.eqb_eq. }
  unfold trustCurrentDomainWithOptionalPIN.
  destruct (pinAccepted sha256Hex (SETTINGS st) pin).
  - cbn [negb]. split.
    + destruct (negb _); cbn [trustOk]; split; intros; try reflexivity;
        by apply Hpin.
    + destruct (negb _); cbn [trustOk]; discriminate.
  - cbn [negb trustOk trustState settingsSaved]. split; [|auto].
    split; [discriminate|]. intros H. apply Hpin in H. discriminate H.
Qed.

Lemma trusted_after pg st pin :
  trustOk (trustCurrentDomainWithOptionalPIN sha256Hex pg st pin) = true ->
  arrIncludes
    (trustedDomains
       (SETTINGS
          (trustState
             (trustCurrentDomainWithOptionalPIN sha256Hex pg st pin))))
    (CURRENT_HOST pg) = true.
Proof.
  unfold trustCurrentDomainWithOptionalPIN.
  destruct (negb (pinAccepted sha256Hex (SETTINGS st) pin)); [discriminate|].
  destruct (arrIncludes (trustedDomains (SETTINGS st)) (CURRENT_HOST pg))
    eqn:Hin; cbn; intros _.
  - exact Hin.
  - apply arrIncludes_In, in_app_iff. right. by left.
Qed.

Lemma trusted_never_blocked pg now st form :
  arrIncludes (trustedDomains (SETTINGS st)) (CURRENT_HOST pg) = true ->
  defaultPrevented (onSubmit pg now st form).2 = false.
Proof.
  intros Htr. unfold onSubmit.
  destruct (enableProtection (SETTINGS st)); [|reflexivity].
  destruct (isEmpty (formTypes form)); [reflexivity|].
  cbn [negb]. rewrite Htr. cbn [negb].
  rewrite andb_false_r. reflexivity.
Qed.

Lemma trusted_stays pg st ev :
  arrIncludes (trustedDomains (SETTINGS st)) (CURRENT_HOST pg) = true ->
  arrIncludes (trustedDomains (SETTINGS (handle sha256Hex pg st ev)))
              (CURRENT_HOST pg) = true.
Proof.
  intros Htr. destruct ev as [now form|now el f|d| |pin| |]; cbn [handle];
    try exact Htr.
  - unfold onSubmit.
    destruct (negb (enableProtection (SETTINGS st))); [exact Htr|].
    destruct (isEmpty (formTypes form)); [exact Htr|].
    destruct (_ && _); exact Htr.
  - unfold clickTrust, trustCurrentDomainWithOptionalPIN.
    destruct (negb (pinAccepted sha256Hex (SETTINGS st) pin)); [exact Htr|].
    rewrite Htr. exact Htr.
Qed.

Lemma trusted_stays_all pg events st :
  arrIncludes (trustedDomains (SETTINGS st)) (CURRENT_HOST pg) = true ->
  arrIncludes
    (trustedDomains (SETTINGS (handleAll sha256Hex pg st events)))
    (CURRENT_HOST pg) = true.
Proof.
  unfold handleAll. revert st.
  induction events as [|ev events IH]; intros st Htr; [exact Htr|].
  cbn [fold_left]. apply IH, trusted_stays, Htr.
Qed.

(** Once the host has been trusted, through the function or through the
    button of the modal, no submission on the page is cancelled any
    more, whatever its risk and whatever happened on the page in
    between: submissions, field changes and clicks on the buttons of
    the badge and the modal all keep the host trusted. *)
Theorem trusted_host_never_blocked pg st pin :
  trustOk (trustCurrentDomainWithOptionalPIN sha256Hex pg st pin) = true ->
  forall events now form,
    defaultPrevented
      (onSubmit pg now
         (handleAll sha256Hex pg
            (trustState
               (trustCurrentDomainWithOptionalPIN sha256Hex pg st pin))
            events)
         form).2 = false
    /\ defaultPrevented
         (onSubmit pg now
            (handleAll sha256Hex pg
               (trustState (clickTrust sha256Hex pg st pin)) events)
            form).2 = false.
Proof.
  intros Hok events now form.
  pose proof (trusted_after pg st pin Hok) as Htr.
  split; apply trusted_never_blocked, trusted_stays_all.
  - exact Htr.
  - unfold clickTrust. rewrite Hok. exact Htr.
Qed.

(** Trusting never puts a host into the list twice and never removes
    one: the list stays free of repetitions, it is the old list, with
    the current host behind it if that was missing; and trusting again
    changes and saves nothing. *)
Theorem trust_adds_once pg st pin pin' :
  NoDup (trustedDomains (SETTINGS st)) ->
  let out := trustCurrentDomainWithOptionalPIN sha256Hex pg st pin in
  let again :=
    trustCurrentDomainWithOptionalPIN sha256Hex pg (trustState out) pin' in
  NoDup (trustedDomains (SETTINGS (trustState out)))
  /\ (trustedDomains (SETTINGS (trustState out))
      = trustedDomains (SETTINGS st)
      \/ (~ In (CURRENT_HOST pg) (trustedDomains (SETTINGS st))
          /\ trustedDomains (SETTINGS (trustState out))
             = trustedDomains (SETTINGS st) ++ [CURRENT_HOST pg]))
  /\ (trustOk out = true ->
      trustState again = trustState out /\ settingsSaved again = false).
Proof.
  intros Hnd out again.
  assert (Hagain : trustOk out = true ->
                   trustState again = trustState out
                   /\ settingsSaved again = false).
  { intros Hok. pose proof (trusted_after pg st pin Hok) as Htr.
    subst again. fold out in Htr.
    unfold trustCurrentDomainWithOptionalPIN.
    destruct (negb (pinAccepted sha256Hex (SETTINGS (trustState out)) pin'));
      [auto|].
    rewrite Htr. auto. }
  subst out again. split; [|split; [|exact Hagain]];
    unfold trustCurrentDomainWithOptionalPIN;
    destruct (negb (pinAccepted sha256Hex (SETTINGS st) pin)); cbn; auto;
    destruct (arrIncludes (trustedDomains (SETTINGS st)) (CURRENT_HOST pg))
      eqn:Hin; cbn; auto.
  - apply NoDup_app. split; [exact Hnd|]. split; [|apply NoDup_singleton].
    intros x Hx Hx'. apply list_elem_of_In in Hx, Hx'.
    destruct Hx' as [<-|[]]. apply arrIncludes_In in Hx. congruence.
  - right. split; [|reflexivity]. intros H. apply arrIncludes_In in H.
    congruence.
Qed.

End TrustLaws.

(** *** Overriding once *)

Lemma onSubmit_effects_same pg now st st' form :
  SETTINGS st' = SETTINGS st -> proceedOnceFlag st' = proceedOnceFlag st ->
  (onSubmit pg now st' form).2 = (onSubmit pg now st form).2.
Proof.
  intros Hs Hf. unfold onSubmit. rewrite Hs, Hf.
  destruct (negb (enableProtection (SETTINGS st))); [reflexivity|].
  destruct (isEmpty (formTypes form)); [reflexivity|].
  destruct (_ && _); reflexivity.
Qed.

(** After a blocked submission, the [proceed-once] button releases the
    held form, and the override lasts for one handled submission: the
    next form with a detected type, whichever it is, goes through and is
    logged as allowed, and from then on the handler decides as it did
    before the override. *)
Theorem proceed_once_lasts_one_submission pg now st form :
  defaultPrevented (onSubmit pg now st form).2 = true ->
  let blockedState := (onSubmit pg now st form).1 in
  let overridden := clickProceedOnce blockedState in
  overridden.2 = Some form
  /\ forall now' form',
       isEmpty (formTypes form') = false ->
       let next := onSubmit pg now' overridden.1 form' in
       defaultPrevented next.2 = false
       /\ (exists e, submitLogged next.2 = Some e
                     /\ action e = "allowed-submit")
       /\ proceedOnceFlag next.1 = false
       /\ forall now'' form'',
            (onSubmit pg now'' next.1 form'').2
            = (onSubmit pg now'' st form'').2.
Proof.
  intros Hblocked blockedState overridden.
  assert (Hst : enableProtection (SETTINGS st) = true
                /\ proceedOnceFlag st = false
                /\ SETTINGS blockedState = SETTINGS st
                /\ pendingFormToSubmit blockedState = Some form).
  { subst blockedState. unfold onSubmit in *.
    destruct (enableProtection (SETTINGS st)); [|discriminate].
    destruct (isEmpty (formTypes form)); [discriminate|]. cbn [negb] in *.
    destruct (proceedOnceFlag st);
      [rewrite andb_false_r in Hblocked; discriminate|].
    destruct (_ && _); [cbn; auto|discriminate]. }
  destruct Hst as (Hprot & Hflag & Hsame & Hpend).
  split; [exact Hpend|].
  intros now' form' Hty next.
  assert (Hnext : next = onSubmit pg now' overridden.1 form') by reflexivity.
  unfold onSubmit in Hnext. cbn [overridden clickProceedOnce fst SETTINGS
                                  proceedOnceFlag] in Hnext.
  rewrite Hsame, Hprot, Hty in Hnext. cbn [negb] in Hnext.
  rewrite andb_false_r in Hnext. rewrite Hnext. cbn.
  split; [reflexivity|]. split; [eauto|]. split; [reflexivity|].
  intros now'' form''. apply onSubmit_effects_same; cbn; auto.
Qed.

(** *** Instances *)

(** An instance: a repeated and reordered list of tags. *)
Lemma score_of_set_witness :
  score (computeRisk ["cvv"; "email"; "cvv"] true false false)
  = score (computeRisk ["email"; "cvv"] true false false)
  /\ level (computeRisk ["cvv"; "email"; "cvv"] true false false)
     = level (computeRisk ["email"; "cvv"] true false false).
Proof.
  apply (score_of_set ["cvv"; "email"; "cvv"] ["email"; "cvv"]).
  intros t. simpl. tauto.
Defined.

(** An instance: a password next to an e-mail address on a trusted
    HTTPS page. *)
Lemma heavy_type_is_high_witness :
  level (computeRisk ["email"; "password"] true false true) = High.
Proof.
  apply (heavy_type_is_high ["email"; "password"] "password").
  - simpl. tauto.
  - vm_compute. discriminate.
Defined.

(** An instance: nothing detected on a trusted HTTPS page. *)
Lemma no_reason_no_score_witness :
  score (computeRisk [] true false true) = 0
  /\ level (computeRisk [] true false true) = Low.
Proof. apply (no_reason_no_score [] true false true). reflexivity. Defined.

(** An instance: the last digit of a valid number replaced. *)
Lemma luhn_detects_one_wrong_digit_witness :
  luhnCheck (lit "411111111111111" ++ 50%N :: []) = false.
Proof.
  apply (luhn_detects_one_wrong_digit (lit "411111111111111") [] 49%N 50%N).
  - reflexivity.
  - reflexivity.
  - discriminate.
  - vm_compute. reflexivity.
Defined.

(** An instance: a card number with sixteen digits. *)
Lemma sample_keeps_four_digits_witness :
  anonymizeSample goodCard "cardNumber" = Some goodCardSample
  /\ (length (stripNonDigits goodCardSample) <= 4)%nat
  /\ ~ occursIn goodCard goodCardSample.
Proof.
  assert (Hs : anonymizeSample goodCard "cardNumber" = Some goodCardSample)
    by (vm_compute; reflexivity).
  split; [exact Hs|].
  destruct (sample_keeps_four_digits goodCard "cardNumber" goodCardSample)
    as [H4 Hno].
  - discriminate.
  - exact Hs.
  - split; [exact H4|]. apply Hno. vm_compute. lia.
Defined.

(** An instance: an address with a user part of three letters. *)
Lemma email_sample_keeps_domain_witness :
  anonymizeSample (lit "ann" ++ 64%N :: lit "mail.example") "email"
  = Some (userMask (lit "ann") ++ lit "@" ++ lit "mail.example").
Proof.
  apply (email_sample_keeps_domain (lit "ann") (lit "mail.example")).
  - intros Hin. vm_compute in Hin.
    repeat (destruct Hin as [Hin|Hin]; [discriminate Hin|]). exact Hin.
  - intros Hin. vm_compute in Hin.
    repeat (destruct Hin as [Hin|Hin]; [discriminate Hin|]). exact Hin.
  - discriminate.
Defined.

(** An instance: a capacity of two, two entries stored. *)
Lemma appendLog_bounded_witness :
  appendLog limitTwo (Some [entryAt 1; entryAt 2]) (entryAt 3)
  = Some (newest (2 - 1) (orEmpty (Some [entryAt 1; entryAt 2]))
          ++ [entryAt 3])
  /\ (length (newest (2 - 1) (orEmpty (Some [entryAt 1; entryAt 2]))
              ++ [entryAt 3]) <= 2)%nat.
Proof.
  apply (appendLog_bounded limitTwo (Some [entryAt 1; entryAt 2])
           (entryAt 3)).
  simpl. lia.
Defined.

(** An instance: a limit of -1. *)
Lemma appendLog_negative_limit_witness :
  appendLog limitNegative (Some [entryAt 1]) (entryAt 2) = None.
Proof.
  apply (appendLog_negative_limit limitNegative). simpl. lia.
Defined.

(** An instance: a form with one e-mail field on an untrusted page. *)
Lemma submit_entry_sound_witness :
  exists e,
    submitLogged (onSubmit somePage 7 initialState emailForm).2 = Some e
    /\ types e = ["email"] /\ 0 <= risk e <= 100
    /\ action e = "allowed-submit".
Proof.
  eexists. split; [vm_compute; reflexivity|].
  match goal with
  | |- types ?e = _ /\ _ =>
      destruct (submit_entry_sound somePage 7 initialState emailForm e
                  ltac:(vm_compute; reflexivity))
        as (_ & Hty & _ & _ & Hrisk & _ & _ & _ & _ & Hact)
  end.
  split; [exact Hty|]. split; [exact Hrisk|]. exact Hact.
Defined.

(** An instance: breach checks on, an address typed with spaces around
    it. *)
Lemma breach_check_opt_in_witness :
  enableBreachChecks (SETTINGS breachChecksOn) = true
  /\ Re.test PATTERNS.email (lit "ann@mail.example") = true.
Proof.
  destruct (breach_check_opt_in somePage 0 breachChecksOn emailField None
              (lit "ann@mail.example"))
    as (_ & Hon & _ & Hre & _).
  - vm_compute. reflexivity.
  - auto.
Defined.

(** An instance: a password form that is blocked before the host is
    trusted with the right PIN, and submitted again after more
    submissions and clicks. *)
Lemma trusted_host_never_blocked_witness :
  defaultPrevented (onSubmit somePage 0 pinState passwordForm).2 = true
  /\ defaultPrevented
       (onSubmit somePage 9
          (handleAll sampleDigest somePage
             (trustState (trustCurrentDomainWithOptionalPIN sampleDigest
                            somePage pinState rightPin))
             laterEvents)
          passwordForm).2 = false.
Proof.
  split; [vm_compute; reflexivity|].
  apply (trusted_host_never_blocked sampleDigest somePage pinState rightPin).
  vm_compute. reflexivity.
Defined.

(** An instance: a list with one trusted bank, the current host added
    with the right PIN, and trusted once more. *)
Lemma trust_adds_once_witness :
  let out :=
    trustCurrentDomainWithOptionalPIN sampleDigest somePage pinState
      rightPin in
  let again :=
    trustCurrentDomainWithOptionalPIN sampleDigest somePage
      (trustState out) rightPin in
  trustedDomains (SETTINGS (trustState out))
  = ["bank.example"; "shop.example"]
  /\ settingsSaved out = true
  /\ NoDup (trustedDomains (SETTINGS (trustState out)))
  /\ (trustedDomains (SETTINGS (trustState out))
      = trustedDomains (SETTINGS pinState)
      \/ (~ In (CURRENT_HOST somePage) (trustedDomains (SETTINGS pinState))
          /\ trustedDomains (SETTINGS (trustState out))
             = trustedDomains (SETTINGS pinState)
               ++ [CURRENT_HOST somePage]))
  /\ trustOk again = true
  /\ trustState again = trustState out
  /\ settingsSaved again = false.
Proof.
  intros out again.
  destruct (trust_adds_once sampleDigest somePage pinState rightPin rightPin)
    as (Hnd & Hlist & Hagain).
  - cbn [pinState SETTINGS trustedDomains]. apply NoDup_singleton.
  - split; [vm_compute; reflexivity|]. split; [vm_compute; reflexivity|].
    split; [exact Hnd|]. split; [exact Hlist|].
    split; [vm_compute; reflexivity|].
    apply Hagain. vm_compute. reflexivity.
Defined.

(** An instance: a password form blocked on an untrusted page. *)
Lemma proceed_once_lasts_one_submission_witness :
  (clickProceedOnce (onSubmit somePage 0 initialState passwordForm).1).2
  = Some passwordForm.
Proof.
  apply (proceed_once_lasts_one_submission somePage 0 initialState
           passwordForm).
  vm_compute. reflexivity.
Defined.

End ItpLaws.

(** ** Further properties of the media guard *)

Module GuardLaws.

Import Guard GuardSamples GuardProofs Notions LawSamples.

Local Open Scope string_scope.
Local Open Scope list_scope.
Local Open Scope Z_scope.

(** *** The sweep *)

Lemma sweep_lookup now (m : gmap string TempPerms) k :
  (sweep now m).1 !! k
  = match m !! k with
    | Some g => if expiry g <=? now then None else Some g
    | None => None
    end.
Proof.
  destruct (m !! k) as [g|] eqn:Hk.
  - destruct (Z.leb_spec (expiry g) now).
    + by apply (sweep_lookup_expired now m k g).
    + by apply sweep_lookup_live.
  - destruct ((sweep now m).1 !! k) as [g|] eqn:Hk'; [|reflexivity].
    apply sweep_lookup_sub in Hk'. destruct Hk' as [Hk' _]. congruence.
Qed.

Lemma cleanup_settings this now :
  settings (cleanupExpiredPermissions this now) = settings this.
Proof.
  unfold cleanupExpiredPermissions.
  destruct (sweep now (temporaryPermissions this)) as [m b]. by destruct b.
Qed.

Lemma cleanup_nothing this now :
  (forall k g, temporaryPermissions this !! k = Some g -> now < expiry g) ->
  cleanupExpiredPermissions this now = this.
Proof.
  intros Hlive. unfold cleanupExpiredPermissions.
  rewrite (sweep_nothing_expired now _ Hlive). by destruct this.
Qed.

(** A sweep right after a sweep, at the same or an earlier time, does
    nothing: the manager stays as it is and the store is not written
    again. *)
Theorem sweep_again_does_nothing this now now' :
  now' <= now ->
  cleanupExpiredPermissions (cleanupExpiredPermissions this now) now'
  = cleanupExpiredPermissions this now.
Proof.
  intros Hle. apply cleanup_nothing. intros k g Hg.
  rewrite cleanup_perms in Hg. apply sweep_lookup_sub in Hg. lia.
Qed.

(** A sweep is invisible to the permission check: at the time of the
    sweep and at any later time the check answers as it would have
    without the sweep. *)
Theorem sweep_keeps_answers this now now' hostname isBackground :
  now <= now' ->
  checkSitePermissions (cleanupExpiredPermissions this now) now'
    hostname isBackground
  = checkSitePermissions this now' hostname isBackground.
Proof.
  intros Hle. unfold checkSitePermissions.
  rewrite cleanup_settings, cleanup_perms, sweep_lookup.
  destruct (isBackground && autoBlockBackground (settings this));
    [reflexivity|].
  destruct (temporaryPermissions this !! hostname) as [g|]; [|reflexivity].
  destruct (Z.leb_spec (expiry g) now); [|reflexivity].
  destruct (Z.gtb_spec (expiry g) now'); [lia|reflexivity].
Qed.

(** Two sweeps leave the map that one sweep at the later of the two
    times leaves. *)
Theorem sweeps_compose this now1 now2 :
  temporaryPermissions
    (cleanupExpiredPermissions (cleanupExpiredPermissions this now1) now2)
  = temporaryPermissions
      (cleanupExpiredPermissions this (Z.max now1 now2)).
Proof.
  apply map_eq. intros k. rewrite !cleanup_perms, !sweep_lookup.
  destruct (temporaryPermissions this !! k) as [g|]; [|reflexivity].
  destruct (Z.leb_spec (expiry g) now1), (Z.leb_spec (expiry g) now2),
    (Z.leb_spec (expiry g) (Z.max now1 now2)); try reflexivity; lia.
Qed.

(** After [loadTemporaryPermissions] has found a stored object, the map
    holds exactly the stored grants that are unexpired, and the store
    holds the same map. *)
Theorem load_keeps_active_grants this now stored :
  storedPermissions this = Some stored ->
  let this' := loadTemporaryPermissions this now in
  (forall hostname g,
      temporaryPermissions this' !! hostname = Some g
      <-> stored !! hostname = Some g /\ now < expiry g)
  /\ storedPermissions this' = Some (temporaryPermissions this')
  /\ settings this' = settings this.
Proof.
  intros Hst this'. subst this'. unfold loadTemporaryPermissions.
  rewrite Hst. split; [|split].
  - intros hostname g. rewrite cleanup_perms. cbn [temporaryPermissions].
    rewrite sweep_lookup. destruct (stored !! hostname) as [g'|].
    + destruct (Z.leb_spec (expiry g') now) as [Hexp|Hlive]; split;
        try discriminate; intros Hx.
      * destruct Hx as [Hx ?]. injection Hx as ->. lia.
      * injection Hx as ->. auto.
      * tauto.
    + split; [discriminate|]. intros [Hx _]. discriminate Hx.
  - unfold cleanupExpiredPermissions. cbn [temporaryPermissions].
    destruct (sweep now stored) as [m b] eqn:Hs. destruct b; cbn.
    + reflexivity.
    + f_equal. apply map_eq. intros k.
      change m with (m, false).1. rewrite <- Hs, sweep_lookup.
      destruct (stored !! k) as [g|] eqn:Hk; [|reflexivity].
      destruct (Z.leb_spec (expiry g) now) as [Hexp|]; [|reflexivity].
      assert (Hflag : (sweep now stored).2 = true)
        by (apply sweep_flag_iff; eauto).
      rewrite Hs in Hflag. discriminate Hflag.
  - by rewrite cleanup_settings.
Qed.

(** *** The permission check *)

Lemma allowed_is_unblocked this now hostname isBackground c :
  allowed (checkSitePermissions this now hostname isBackground) c = true ->
  blocked (settings this) c = false
  /\ isBackground && autoBlockBackground (settings this) = false.
Proof.
  unfold checkSitePermissions.
  destruct (isBackground && autoBlockBackground (settings this)).
  - destruct c; discriminate.
  - destruct (temporaryPermissions this !! hostname) as [g|];
      [destruct (expiry g >? now)|];
      destruct c; cbn; intros H;
      rewrite ?andb_true_iff, ?negb_true_iff in H; tauto.
Qed.

(** The check never allows a capability that the global settings block,
    and never allows anything to a background tab under
    [autoBlockBackground]: a temporary grant cannot widen the global
    settings. *)
Theorem check_never_exceeds_global this now hostname isBackground c :
  allowed (checkSitePermissions this now hostname isBackground) c = true ->
  blocked (settings this) c = false
  /\ isBackground && autoBlockBackground (settings this) = false.
Proof. apply allowed_is_unblocked. Qed.

(** While a site has an unexpired grant, a capability that the grant
    does not cover is denied, even when the global settings allow it. *)
Theorem uncovered_capability_denied this now hostname g isBackground c :
  temporaryPermissions this !! hostname = Some g ->
  now < expiry g ->
  covers g c = false ->
  allowed (checkSitePermissions this now hostname isBackground) c = false.
Proof.
  intros Hg Hlive Hcov. unfold checkSitePermissions.
  destruct (isBackground && autoBlockBackground (settings this));
    [by destruct c|].
  rewrite Hg. destruct (Z.gtb_spec (expiry g) now); [|lia].
  destruct c; cbn in *; by rewrite Hcov.
Qed.

(** *** The activity log *)

Lemma capped_push {A : Type} (cap : nat) (l : list A) (x : A) :
  (1 <= cap)%nat ->
  (if (cap <? length (l ++ [x]))%nat
   then skipn (length (l ++ [x]) - cap) (l ++ [x])
   else l ++ [x])
  = newest (cap - 1) l ++ [x]
  /\ (length (newest (cap - 1) l ++ [x]) <= cap)%nat.
Proof.
  intros Hcap. unfold newest. rewrite !length_app, length_skipn.
  cbn [length]. split; [|lia].
  destruct (Nat.ltb_spec cap (length l + 1)).
  - rewrite skipn_app.
    replace (length l + 1 - cap)%nat with (length l - (cap - 1))%nat by lia.
    f_equal.
    replace (length l - (cap - 1) - length l)%nat with 0%nat by lia.
    reflexivity.
  - replace (length l - (cap - 1))%nat with 0%nat by lia. reflexivity.
Qed.

(** With activity logging on, [logActivity] of the background manager
    stores the new entry last, behind the newest 999 of the entries it
    found, so never more than 1000; with logging off it leaves the
    stored log as it is. *)
Theorem logActivity_keeps_newest_1000 this agent now activityLog
        hostname action device :
  let entry :=
    {| Activity.timestamp := now; Activity.site := hostname;
       Activity.action := action; Activity.device := device;
       Activity.userAgent := Some agent |} in
  Activity.logActivity this agent now activityLog hostname action device
  = (if logActivity (settings this)
     then Some (newest 999 (orEmpty activityLog) ++ [entry])
     else activityLog)
  /\ (length (newest 999 (orEmpty activityLog) ++ [entry]) <= 1000)%nat.
Proof.
  intros entry. unfold Activity.logActivity. fold (orEmpty activityLog).
  fold entry.
  destruct (capped_push 1000 (orEmpty activityLog) entry ltac:(lia))
    as [Heq Hlen].
  split; [|exact Hlen].
  destruct (logActivity (settings this)); [|reflexivity].
  cbn [negb]. f_equal. exact Heq.
Qed.

(** [logActivity] of the popup stores the new entry behind the newest
    99 of the entries it found: after the popup has logged, the shared
    log holds at most 100 entries, however many the background manager
    had kept. *)
Theorem popup_log_keeps_newest_100 now activityLog site action device :
  let entry :=
    {| Activity.timestamp := now; Activity.site := site;
       Activity.action := action; Activity.device := device;
       Activity.userAgent := None |} in
  Popup.logActivity now activityLog site action device
  = newest 99 (orEmpty activityLog) ++ [entry]
  /\ (length (Popup.logActivity now activityLog site action device)
      <= 100)%nat.
Proof.
  intros entry. unfold Popup.logActivity. fold (orEmpty activityLog).
  fold entry.
  destruct (capped_push 100 (orEmpty activityLog) entry ltac:(lia))
    as [Heq Hlen].
  rewrite Heq. split; [reflexivity|exact Hlen].
Qed.

Lemma counts_lookup l (m : gmap string Z) s :
  fold_left Activity.countActivity l m !! s
  = match occurrences s l with
    | O => m !! s
    | S _ => Some (default 0 (m !! s) + Z.of_nat (occurrences s l))
    end.
Proof.
  revert m. induction l as [|a l IH]; intros m; [reflexivity|].
  cbn [fold_left]. rewrite IH. unfold occurrences. cbn [List.filter].
  unfold Activity.countActivity at 1 2.
  destruct (String.eqb_spec (Activity.site a) s) as [->|Hne].
  - rewrite lookup_insert_eq. cbn [length default].
    destruct (length _) as [|n]; f_equal; unfold id; lia.
  - by rewrite lookup_insert_ne.
Qed.

(** For site names that are not names of inherited object properties,
    [detectSuspiciousActivity] alerts exactly the sites with more than
    10 logged attempts within the last hour, each with that number. *)
Theorem suspicious_iff_more_than_ten now activities s n :
  Forall (fun a => ~ In (Activity.site a) Activity.inheritedKeys)
         activities ->
  Activity.detectSuspiciousActivity now (Some activities) !! s = Some n
  <-> n = attempts now activities s /\ 10 < n.
Proof.
  intros _. unfold Activity.detectSuspiciousActivity, Activity.siteCounts.
  rewrite map_lookup_filter_Some, counts_lookup, lookup_empty.
  unfold attempts. cbn [default snd].
  destruct (occurrences s _) as [|k] eqn:Hk.
  - split; [intros [H _]; discriminate H|]. intros [-> H]. simpl in H. lia.
  - split.
    + intros [H Hn]. injection H as <-. split; [lia|exact Hn].
    + intros [-> Hn]. split; [f_equal; lia|exact Hn].
Qed.

(** *** The page script and the content script *)

(** [interceptedGetUserMedia] refuses a request exactly when it asks
    for a device that the permission answer does not allow and that no
    unexpired grant held by the page script covers; so a request for
    neither device is never refused, and an unexpired grant overrides
    the answer. *)
Theorem getUserMedia_refused_iff fake temporaryPermissions now
        video audio permissions :
  MediaGuard.interceptedGetUserMedia fake temporaryPermissions now
    video audio permissions = MediaGuard.NotAllowedError
  <-> (video = true
       /\ MediaGuard.webcamAllowed permissions = false
       /\ grantCovers temporaryPermissions now Webcam = false)
      \/ (audio = true
          /\ MediaGuard.microphoneAllowed permissions = false
          /\ grantCovers temporaryPermissions now Microphone = false).
Proof.
  unfold MediaGuard.interceptedGetUserMedia, grantCovers.
  destruct permissions as [cam mic]. cbn [MediaGuard.webcamAllowed
                                          MediaGuard.microphoneAllowed].
  destruct temporaryPermissions as [[w m e]|]; cbn [expiry covers webcam
                                                    microphone];
    [destruct (e >? now)|];
    destruct video, audio, cam, mic, fake;
    try destruct w; try destruct m; cbn;
    split; intros H; try discriminate H; try tauto;
    try (destruct H as [(? & ? & ?)|(? & ? & ?)]; discriminate).
Qed.

(** An access attempt is reported as [allowed] or [fake] only when its
    device names a capability that the global settings do not block and
    the tab is not a background tab under [autoBlockBackground]; attempts
    on any other device, such as the screen, are reported as
    [blocked]. *)
Theorem reported_allowed_only_if_unblocked fake this now hostname
        isBackground device :
  MediaGuard.handleAccessAttempt fake
    (Some (checkSitePermissions this now hostname isBackground)) device
  <> "blocked" ->
  exists c,
    capabilityOf device = Some c
    /\ blocked (settings this) c = false
    /\ isBackground && autoBlockBackground (settings this) = false.
Proof.
  unfold MediaGuard.handleAccessAttempt, capabilityOf.
  cbn [MediaGuard.getPermissions MediaGuard.webcamAllowed
       MediaGuard.microphoneAllowed].
  destruct (String.eqb device "video" || String.eqb device "webcam").
  - destruct (webcamAllowed _) eqn:Hal; [|congruence]. intros _.
    exists Webcam. split; [reflexivity|].
    apply (allowed_is_unblocked this now hostname isBackground Webcam).
    exact Hal.
  - destruct (String.eqb device "audio" || String.eqb device "microphone");
      [|congruence].
    destruct (microphoneAllowed _) eqn:Hal; [|congruence]. intros _.
    exists Microphone. split; [reflexivity|].
    apply (allowed_is_unblocked this now hostname isBackground Microphone).
    exact Hal.
Qed.

(** *** From the popup to the background manager *)

(** A grant made in the popup at time [now] for [duration] minutes and
    loaded by the background manager at time [loaded]: before its
    expiry the map holds it and a foreground check answers from it,
    from its expiry on the check answers from the global settings, and
    a load at or after the expiry drops it. *)
Theorem popup_grant_reaches_check popupPermissions now webcamChecked
        micChecked duration siteName this loaded asked :
  webcamChecked || micChecked = true ->
  loaded <= asked ->
  let granted :=
    Popup.grantTemporaryAccess popupPermissions now webcamChecked
      micChecked duration (Some siteName) in
  let grant :=
    {| webcam := webcamChecked; microphone := micChecked;
       expiry := now + duration * 60 * 1000 |} in
  let this' :=
    loadTemporaryPermissions
      (withStored this (Popup.storedObject granted)) loaded in
  Popup.popupPermissions granted !! siteName = Some grant
  /\ temporaryPermissions this' !! siteName
     = (if expiry grant <=? loaded then None else Some grant)
  /\ checkSitePermissions this' asked siteName false
     = (if expiry grant >? asked
        then temporaryAnswer (settings this) grant
        else globalAnswer (settings this)).
Proof.
  intros Hsel Hle granted grant this'.
  assert (Hgr : granted
                = {| Popup.popupPermissions :=
                       <[siteName := grant]> popupPermissions;
                     Popup.storedObject :=
                       Some (<[siteName := grant]> popupPermissions);
                     Popup.sentToTab := Some grant;
                     Popup.loggedDevice :=
                       Some (if webcamChecked then "webcam"
                             else "microphone") |}).
  { subst granted grant. unfold Popup.grantTemporaryAccess.
    destruct webcamChecked, micChecked; try discriminate Hsel; reflexivity. }
  assert (Hmap : temporaryPermissions this' !! siteName
                 = (if expiry grant <=? loaded then None else Some grant)).
  { subst this'. rewrite Hgr. cbn [Popup.storedObject].
    unfold loadTemporaryPermissions, withStored. cbn [storedPermissions].
    rewrite cleanup_perms. cbn [temporaryPermissions].
    by rewrite sweep_lookup, lookup_insert_eq. }
  assert (Hset : settings this' = settings this).
  { subst this'. rewrite Hgr. cbn [Popup.storedObject].
    unfold loadTemporaryPermissions, withStored. cbn [storedPermissions].
    by rewrite cleanup_settings. }
  split; [rewrite Hgr; apply lookup_insert_eq|]. split; [exact Hmap|].
  unfold checkSitePermissions. rewrite Hset, Hmap. cbn [andb].
  unfold temporaryAnswer, globalAnswer.
  destruct (Z.leb_spec (expiry grant) loaded),
    (Z.gtb_spec (expiry grant) asked); try reflexivity; lia.
Qed.

(** *** Instances *)

(** An instance: swept at 1500 and again at 1000. *)
Lemma sweep_again_does_nothing_witness :
  cleanupExpiredPermissions
    (cleanupExpiredPermissions (openManager 1200) 1500) 1000
  = cleanupExpiredPermissions (openManager 1200) 1500.
Proof.
  apply (sweep_again_does_nothing (openManager 1200) 1500 1000). lia.
Defined.

(** An instance: a grant that ended at 1200, swept at 1500, asked at
    1600. *)
Lemma sweep_keeps_answers_witness :
  checkSitePermissions (cleanupExpiredPermissions (openManager 1200) 1500)
    1600 "meet.example" false
  = checkSitePermissions (openManager 1200) 1600 "meet.example" false.
Proof.
  apply (sweep_keeps_answers (openManager 1200) 1500 1600 "meet.example"
           false).
  lia.
Defined.

(** An instance: the stored grant runs until 2000 and is loaded at
    1000. *)
Lemma load_keeps_active_grants_witness :
  storedPermissions (loadTemporaryPermissions (openManager 2000) 1000)
  = Some (temporaryPermissions
            (loadTemporaryPermissions (openManager 2000) 1000)).
Proof.
  apply (load_keeps_active_grants (openManager 2000) 1000
           {["meet.example" := camGrant 2000]}).
  reflexivity.
Defined.

(** An instance: an unexpired webcam grant with nothing blocked. *)
Lemma check_never_exceeds_global_witness :
  blocked (settings (openManager 2000)) Webcam = false
  /\ false && autoBlockBackground (settings (openManager 2000)) = false.
Proof.
  apply (check_never_exceeds_global (openManager 2000) 1000 "meet.example"
           false Webcam).
  unfold checkSitePermissions. cbn [andb openManager temporaryPermissions].
  rewrite lookup_singleton_eq. reflexivity.
Defined.

(** An instance: a webcam grant, the microphone not blocked globally. *)
Lemma uncovered_capability_denied_witness :
  blocked (settings (openManager 2000)) Microphone = false
  /\ allowed (checkSitePermissions (openManager 2000) 1000 "meet.example"
                false) Microphone = false.
Proof.
  split; [reflexivity|].
  apply (uncovered_capability_denied (openManager 2000) 1000
           "meet.example" (camGrant 2000) false Microphone).
  - apply lookup_singleton_eq.
  - simpl. lia.
  - reflexivity.
Defined.

(** An instance: twelve attempts of one site within the hour. *)
Lemma suspicious_iff_more_than_ten_witness :
  Activity.detectSuspiciousActivity 6000 (Some busyLog) !! "track.example"
  = Some 12.
Proof.
  apply (suspicious_iff_more_than_ten 6000 busyLog "track.example" 12).
  - unfold busyLog. repeat constructor;
      (intros Hin; vm_compute in Hin;
       repeat (destruct Hin as [Hin|Hin]; [discriminate Hin|]); exact Hin).
  - split; [vm_compute; reflexivity|lia].
Defined.

(** An instance: a foreground tab asking for the webcam, nothing
    blocked. *)
Lemma reported_allowed_only_if_unblocked_witness :
  exists c,
    capabilityOf "video" = Some c
    /\ blocked (settings (openManager 2000)) c = false
    /\ false && autoBlockBackground (settings (openManager 2000)) = false.
Proof.
  apply (reported_allowed_only_if_unblocked false (openManager 2000) 1000
           "other.example" false "video").
  unfold checkSitePermissions. cbn [andb openManager temporaryPermissions].
  rewrite lookup_singleton_ne by discriminate. vm_compute. discriminate.
Defined.

(** An instance: a five-minute webcam grant made at 0, loaded at 1000
    and asked about one minute in. *)
Lemma popup_grant_reaches_check_witness :
  checkSitePermissions
    (loadTemporaryPermissions
       (withStored freshManager
          (Popup.storedObject
             (Popup.grantTemporaryAccess ∅ 0 true false 5
                (Some "meet.example"))))
       1000)
    60000 "meet.example" false
  = temporaryAnswer openSettings
      {| webcam := true; microphone := false; expiry := 300000 |}.
Proof.
  apply (popup_grant_reaches_check ∅ 0 true false 5 "meet.example"
           freshManager 1000 60000).
  - reflexivity.
  - lia.
Defined.

End GuardLaws.
